(** * The Aurelia rendering engine (runtime/src/templating/rendering-engine.ts)

    A shallow embedding of the template-instantiation core: the scoped
    instance providers, the render context built by [createRenderContext],
    the memoising [RenderingEngine] and the two intrusive lifecycle lists.

    JavaScript objects have identity and are mutated in place, so every
    stateful operation is a function on an explicit store.  Exceptions are
    explicit too: an operation either returns or throws, and in both cases
    hands back the store as it left it.

    The file imports its collaborators (the container, [Reporter],
    [ViewFactory], [NodeSequence], [buildTemplateDefinition], the template
    compilers and the [Renderer]) from other modules.  What the code below
    needs of them is a parameter where it is a function the engine calls,
    and a small model otherwise; each model says so.  [applyRuntimeBehavior],
    [createRenderer] and [RuntimeCompilationResources] only forward to
    those collaborators and are left out. *)

From stdpp Require Import gmap strings list fin_maps.
From Stdlib Require Import ZArith Lia.

Set Default Proof Using "Type".

(* ===================================================================== *)
(** ** JavaScript values                                                  *)
(* ===================================================================== *)

(** A slot of TypeScript type [T] compiled without strict null checks:
    besides a [T] it may hold [undefined] or [null], and the code tells
    the two apart with [===]. *)
Inductive nullable (T : Type) : Type :=
  | JsUndefined
  | JsNull
  | JsValue (t : T).
Arguments JsUndefined {T}.
Arguments JsNull {T}.
Arguments JsValue {T} t.

(** [if (x)] for a slot whose [T] is an object type. *)
Definition truthy {T : Type} (x : nullable T) : bool :=
  match x with
  | JsValue _ => true
  | JsUndefined | JsNull => false
  end.

(** [x || d] for such a slot. *)
Definition or_else {T : Type} (x : nullable T) (d : T) : T :=
  match x with
  | JsValue t => t
  | JsUndefined | JsNull => d
  end.

(** [if (s)] for an optional string: absent and [''] are falsy. *)
Definition truthy_string (s : option string) : bool :=
  match s with
  | Some s => negb (String.eqb s EmptyString)
  | None => false
  end.

(** Modelled from the spec: [Reporter.error(code, ...params)] of the
    kernel package, which builds the error that the code throws.  All the
    spec says of it is that the failures are fatal, told apart by their
    code, and that the unknown-compiler one reports the offending name; so
    an error is the code and the parameters that were handed over.  The
    runtime itself raises a [TypeError] when a property of [null] or
    [undefined] is read or written. *)
Inductive error : Type :=
  | ReporterError (code : nat) (params : list string)
  | TypeError (property : string).

(** The completion of a call that does not touch the store. *)
Inductive completion (A : Type) : Type :=
  | Normal (a : A)
  | Thrown (e : error).
Arguments Normal {A} a.
Arguments Thrown {A} e.

(** Identities of the objects that can be stored in a property. *)
Inductive ctxref : Type :=
  | Container              (* the container the engine was constructed with *)
  | Ctx (i : nat).         (* the i-th context made by createRenderContext *)

Inductive ref : Type :=
  | Obj (n : nat)                 (* a renderable, bindable, node, instruction ... *)
  | CtxObj (c : ctxref)           (* a render context *)
  | NodeSequence_empty            (* the constant NodeSequence.empty *)
  | NodeSequence (n : nat).       (* the n-th result of createNodeSequence() *)

Inductive value : Type :=
  | VUndefined
  | VNull
  | VBool (b : bool)
  | VNum (z : Z)
  | VStr (s : string)
  | VRef (r : ref).

#[global] Instance ctxref_eq_dec : EqDecision ctxref.
Proof. solve_decision. Defined.
#[global] Instance ref_eq_dec : EqDecision ref.
Proof. solve_decision. Defined.
#[global] Instance value_eq_dec : EqDecision value.
Proof. solve_decision. Defined.
#[global] Instance nullable_eq_dec {T} `{EqDecision T} : EqDecision (nullable T).
Proof. solve_decision. Defined.
#[global] Instance error_eq_dec : EqDecision error.
Proof. solve_decision. Defined.

Definition ref_encode (r : ref) : nat + (option nat + option nat) :=
  match r with
  | Obj n => inl n
  | CtxObj Container => inr (inl None)
  | CtxObj (Ctx i) => inr (inl (Some i))
  | NodeSequence_empty => inr (inr None)
  | NodeSequence n => inr (inr (Some n))
  end.

Definition ref_decode (x : nat + (option nat + option nat)) : ref :=
  match x with
  | inl n => Obj n
  | inr (inl None) => CtxObj Container
  | inr (inl (Some i)) => CtxObj (Ctx i)
  | inr (inr None) => NodeSequence_empty
  | inr (inr (Some n)) => NodeSequence n
  end.

#[global] Instance ref_countable : Countable ref.
Proof.
  apply (inj_countable' ref_encode ref_decode).
  intros [n|[|i]| |n]; reflexivity.
Defined.

(* ===================================================================== *)
(** ** InstanceProvider                                                   *)
(* ===================================================================== *)

Section InstanceProvider.
Variable T : Type.

(** [private instance: T = null;] *)
Record InstanceProvider : Type := { instance : nullable T }.

Definition InstanceProvider_new : InstanceProvider :=
  {| instance := JsNull |}.

Definition InstanceProvider_prepare (x : nullable T) (this : InstanceProvider) : InstanceProvider :=
  {| instance := x |}.

(** [resolve(handler, requestor)]: neither argument is read. *)
Definition InstanceProvider_resolve (handler requestor : ctxref) (this : InstanceProvider)
  : completion (nullable T) :=
  match instance this with
  | JsUndefined => Thrown (ReporterError 50 [])
  | x => Normal x
  end.

Definition InstanceProvider_dispose (this : InstanceProvider) : InstanceProvider :=
  {| instance := JsNull |}.
End InstanceProvider.
Arguments instance {T} _.
Arguments InstanceProvider_new {T}.
Arguments InstanceProvider_prepare {T} x this.
Arguments InstanceProvider_resolve {T} handler requestor this.
Arguments InstanceProvider_dispose {T} this.

(* ===================================================================== *)
(** ** The object store and the lifecycle lists                           *)
(* ===================================================================== *)

(** An object is a bag of properties; a property that was never written
    reads as [undefined].  The store maps every object identity to its
    bag; an identity without an entry is an object without properties. *)
Definition get_prop (h : gmap ref (gmap string value)) (o : ref) (p : string) : value :=
  match h !! o with
  | Some bag => default VUndefined (bag !! p)
  | None => VUndefined
  end.

Definition set_prop (h : gmap ref (gmap string value)) (o : ref) (p : string) (v : value)
  : gmap ref (gmap string value) :=
  <[o := <[p := v]> (default ∅ (h !! o))]> h.

(** A mutator of the object store returns it, or throws half-way and
    leaves the writes it made so far. *)
Inductive effect : Type :=
  | Done (h : gmap ref (gmap string value))
  | Failed (e : error) (h : gmap ref (gmap string value)).

Definition store_of (r : effect) : gmap ref (gmap string value) :=
  match r with
  | Done h | Failed _ h => h
  end.

(** [x.p = v] where [x] is itself the value of a property: only an object
    can be assigned to (the module is strict-mode code). *)
Definition assign (h : gmap ref (gmap string value)) (target : value) (p : string) (v : value)
  : effect :=
  match target with
  | VRef o => Done (set_prop h o p v)
  | _ => Failed (TypeError p) h
  end.

Definition addBindable (renderable bindable : ref) (h : gmap ref (gmap string value))
  : effect :=
  let h := set_prop h bindable "$prevBind" (get_prop h renderable "$bindableTail") in
  let h := set_prop h bindable "$nextBind" VNull in
  match
    (if decide (get_prop h renderable "$bindableTail" = VNull)
     then Done (set_prop h renderable "$bindableHead" (VRef bindable))
     else assign h (get_prop h renderable "$bindableTail") "$nextBind" (VRef bindable))
  with
  | Done h => Done (set_prop h renderable "$bindableTail" (VRef bindable))
  | Failed e h => Failed e h
  end.

Definition addAttachable (renderable attachable : ref) (h : gmap ref (gmap string value))
  : effect :=
  let h := set_prop h attachable "$prevAttach" (get_prop h renderable "$attachableTail") in
  let h := set_prop h attachable "$nextAttach" VNull in
  match
    (if decide (get_prop h renderable "$attachableTail" = VNull)
     then Done (set_prop h renderable "$attachableHead" (VRef attachable))
     else assign h (get_prop h renderable "$attachableTail") "$nextAttach" (VRef attachable))
  with
  | Done h => Done (set_prop h renderable "$attachableTail" (VRef attachable))
  | Failed e h => Failed e h
  end.

(** The two functions are one algorithm over four property names; the
    proofs below are done once, on this common form. *)
Definition append (head tail prev next : string) (owner node : ref)
  (h : gmap ref (gmap string value)) : effect :=
  let h := set_prop h node prev (get_prop h owner tail) in
  let h := set_prop h node next VNull in
  match
    (if decide (get_prop h owner tail = VNull)
     then Done (set_prop h owner head (VRef node))
     else assign h (get_prop h owner tail) next (VRef node))
  with
  | Done h => Done (set_prop h owner tail (VRef node))
  | Failed e h => Failed e h
  end.

(** One mutation after another; a throw ends the sequence. *)
Definition and_then (r : effect) (k : gmap ref (gmap string value) → effect) : effect :=
  match r with
  | Done h => k h
  | Failed e h => Failed e h
  end.

(** Head-to-tail traversal, [for (n = head; n !== null; n = n.next)], cut
    after [fuel] nodes; [None] when the walk leaves the objects or does
    not end within the fuel. *)
Fixpoint traverse (fuel : nat) (next : string) (h : gmap ref (gmap string value))
  (current : value) : option (list ref) :=
  match current with
  | VNull => Some []
  | VRef o =>
      match fuel with
      | O => None
      | S fuel => cons o <$> traverse fuel next h (get_prop h o next)
      end
  | _ => None
  end.

(** The value of a link that points at [o], or at nothing. *)
Definition link (o : option ref) : value :=
  match o with
  | Some r => VRef r
  | None => VNull
  end.

(** [owner] holds exactly the nodes [l], in this order, in the list whose
    four properties are named [head], [tail], [prev] and [next]. *)
Record linked (head tail prev next : string) (h : gmap ref (gmap string value))
  (owner : ref) (l : list ref) : Prop := {
  linked_NoDup : NoDup l;
  linked_head : get_prop h owner head = link (l !! 0);
  linked_tail : get_prop h owner tail = link (last l);
  linked_next : ∀ i n, l !! i = Some n → get_prop h n next = link (l !! S i);
  linked_prev : ∀ i n, l !! i = Some n →
    get_prop h n prev = link (match i with O => None | S j => l !! j end);
}.

(** The properties [append] may write, whether it returns or throws: the
    two links of the node, the owner's head and tail, and the forward
    link of the tail it found. *)
Definition footprint (head tail prev next : string) (h : gmap ref (gmap string value))
  (owner node : ref) : list (ref * string) :=
  [(node, prev); (node, next); (owner, head); (owner, tail)] ++
  match get_prop h owner tail with
  | VRef t => [(t, next)]
  | _ => []
  end.

(** The two lifecycle lists of a renderable. *)
Inductive lifecycle_list : Type :=
  | Bindables
  | Attachables.

Definition add (k : lifecycle_list) : ref → ref → gmap ref (gmap string value) → effect :=
  match k with
  | Bindables => addBindable
  | Attachables => addAttachable
  end.

Definition writes (k : lifecycle_list) : gmap ref (gmap string value) → ref → ref →
  list (ref * string) :=
  match k with
  | Bindables => footprint "$bindableHead" "$bindableTail" "$prevBind" "$nextBind"
  | Attachables => footprint "$attachableHead" "$attachableTail" "$prevAttach" "$nextAttach"
  end.

(** The four property names of a list. *)
Definition head_of (k : lifecycle_list) : string :=
  match k with Bindables => "$bindableHead" | Attachables => "$attachableHead" end.

Definition tail_of (k : lifecycle_list) : string :=
  match k with Bindables => "$bindableTail" | Attachables => "$attachableTail" end.

Definition prev_of (k : lifecycle_list) : string :=
  match k with Bindables => "$prevBind" | Attachables => "$prevAttach" end.

Definition next_of (k : lifecycle_list) : string :=
  match k with Bindables => "$nextBind" | Attachables => "$nextAttach" end.

(** [owner]'s list of kind [k] holds exactly the nodes [l], in this order. *)
Definition listed (k : lifecycle_list) (h : gmap ref (gmap string value))
  (owner : ref) (l : list ref) : Prop :=
  linked (head_of k) (tail_of k) (prev_of k) (next_of k) h owner l.

(** [add] for each node of [nodes] in turn; the first throw ends it. *)
Definition add_all (k : lifecycle_list) (owner : ref) (nodes : list ref)
  (h : gmap ref (gmap string value)) : effect :=
  foldl (λ r node, and_then r (add k owner node)) (Done h) nodes.

(* ===================================================================== *)
(** ** Template definitions and the objects the engine allocates          *)
(* ===================================================================== *)

(** Modelled from the spec: [TemplateDefinition] of ../definitions, "a
    markup/template payload, declared dependencies, named compiler to use,
    a requires-build flag, and a recycling-cache size", with the field
    names the code reads.

    [definition.template]: markup, a node, or nothing. *)
Inductive template_src : Type :=
  | NoTemplate                   (* undefined or null *)
  | Markup (s : string)
  | TemplateNode (n : ref).

(** [if (definition.template)] *)
Definition truthy_template (t : template_src) : bool :=
  match t with
  | NoTemplate => false
  | Markup s => negb (String.eqb s EmptyString)
  | TemplateNode _ => true
  end.

(** [definition.cache]: a number or ['*']. *)
Inductive cache_size : Type :=
  | CacheNumber (n : Z)
  | CacheAll.

Record IBuildInstruction : Type := {
  required : bool;
  compiler : option string;
}.

Record TemplateDefinition : Type := {
  name : option string;
  template : template_src;
  cache : cache_size;
  build : IBuildInstruction;
  dependencies : option (list nat);      (* registrable things, by identity *)
}.

(** Definitions are immutable objects; the engine's caches are keyed by
    their identity. *)
Abbreviation defref := nat (only parsing).

(** The definition object handed to [templateFromSource]: the caller's own
    object, or the new object [buildTemplateDefinition(null, d)] returned
    inside [getViewFactory]. *)
Inductive defobj : Type :=
  | Supplied (d : defref)
  | Normalised (d : defref).

(** [TemplatePartDefinitions]: replacement definitions by part name. *)
Abbreviation parts := (gmap string defref).

(** Modelled from the spec: [PLATFORM.emptyObject] of the kernel package,
    the parts object without any replacement of its own.  A [parts] value
    lists the entries an object holds itself; like every ordinary object,
    a parts object, this one included, also inherits the members of its
    prototype, which the property read in [ViewFactoryProvider.resolve]
    finds (see [replacement_for] below). *)
Definition emptyObject : parts := ∅.

(** An [ITemplate] is the constant [noViewTemplate] or a [CompiledTemplate]
    object. *)
Inductive tref : Type :=
  | noViewTemplate
  | Compiled (i : nat).

Abbreviation facref := nat (only parsing).

#[global] Instance tref_eq_dec : EqDecision tref.
Proof. solve_decision. Defined.
#[global] Instance defobj_eq_dec : EqDecision defobj.
Proof. solve_decision. Defined.

(** [ViewCompileFlags] of ./template-compiler; the engine passes
    [surrogate] and nothing else. *)
Inductive ViewCompileFlags : Type :=
  | surrogate.

(** A pluggable compiler: [compile(definition, resources, flags)], where
    [resources] is a [RuntimeCompilationResources] over the given context.
    The compiler is the caller's; it is taken to return a definition and
    not to call back into the engine. *)
Record ITemplateCompiler : Type := {
  compiler_name : string;
  compile : TemplateDefinition → ctxref → ViewCompileFlags → TemplateDefinition;
}.

(** One invocation of a compiler's [compile]. *)
Record compile_call : Type := {
  call_compiler : string;
  call_definition : defobj;
  call_resources : ctxref;
}.

(** Modelled from the spec: the registrations of the container, which
    the code makes with [context.register(...dependencies)] and
    [componentType.register(context)].  A context records what was
    registered into it: the declared dependencies and, for recursive
    components, the component type itself. *)
Inductive registration : Type :=
  | Dependency (key : nat)
  | ComponentType (type : nat).

(** [ViewFactoryProvider]: both fields are declared without initialiser,
    so they start out [undefined]. *)
Record ViewFactoryProvider : Type := {
  factory : nullable facref;
  replacements : nullable parts;
}.

Definition ViewFactoryProvider_new : ViewFactoryProvider :=
  {| factory := JsUndefined; replacements := JsUndefined |}.

Definition ViewFactoryProvider_prepare (f : nullable facref) (p : nullable parts)
  (this : ViewFactoryProvider) : ViewFactoryProvider :=
  {| factory := f; replacements := JsValue (or_else p emptyObject) |}.

Definition ViewFactoryProvider_dispose (this : ViewFactoryProvider) : ViewFactoryProvider :=
  {| factory := JsNull; replacements := JsNull |}.

(** The context returned by [createRenderContext]: the child that
    [parentRenderContext.createChild()] made, which knows its parent, with
    the five providers its closures capture. *)
Record RenderContext : Type := {
  parent : ctxref;
  renderableProvider : InstanceProvider ref;
  elementProvider : InstanceProvider ref;
  instructionProvider : InstanceProvider ref;
  factoryProvider : ViewFactoryProvider;
  renderLocationProvider : InstanceProvider ref;
  registered : list registration;
}.

(** [context.beginComponentOperation(renderable, target, instruction,
    factory?, parts?, location?)] *)
Definition beginComponentOperation
  (renderable target instruction : nullable ref)
  (f : nullable facref) (p : nullable parts) (location : nullable ref)
  (context : RenderContext) : RenderContext :=
  {| parent := parent context;
     renderableProvider := InstanceProvider_prepare renderable (renderableProvider context);
     elementProvider := InstanceProvider_prepare target (elementProvider context);
     instructionProvider := InstanceProvider_prepare instruction (instructionProvider context);
     factoryProvider :=
       if truthy f
       then ViewFactoryProvider_prepare f p (factoryProvider context)
       else factoryProvider context;
     renderLocationProvider :=
       if truthy location
       then InstanceProvider_prepare location (renderLocationProvider context)
       else renderLocationProvider context;
     registered := registered context |}.

(** [context.dispose()] *)
Definition RenderContext_dispose (context : RenderContext) : RenderContext :=
  {| parent := parent context;
     renderableProvider := InstanceProvider_dispose (renderableProvider context);
     elementProvider := InstanceProvider_dispose (elementProvider context);
     instructionProvider := InstanceProvider_dispose (instructionProvider context);
     factoryProvider := ViewFactoryProvider_dispose (factoryProvider context);
     renderLocationProvider := InstanceProvider_dispose (renderLocationProvider context);
     registered := registered context |}.

(** [context.register(...)] *)
Definition RenderContext_register (rs : list registration) (context : RenderContext)
  : RenderContext :=
  {| parent := parent context;
     renderableProvider := renderableProvider context;
     elementProvider := elementProvider context;
     instructionProvider := instructionProvider context;
     factoryProvider := factoryProvider context;
     renderLocationProvider := renderLocationProvider context;
     registered := registered context ++ rs |}.

(** The context as [createRenderContext] leaves it: child of
    [parentRenderContext], fresh providers, dependencies registered when
    the array is there. *)
Definition RenderContext_new (parentRenderContext : ctxref) (deps : option (list nat))
  : RenderContext :=
  {| parent := parentRenderContext;
     renderableProvider := InstanceProvider_new;
     elementProvider := InstanceProvider_new;
     instructionProvider := InstanceProvider_new;
     factoryProvider := ViewFactoryProvider_new;
     renderLocationProvider := InstanceProvider_new;
     registered :=
       match deps with
       | Some ds => Dependency <$> ds
       | None => []
       end |}.

(** A [CompiledTemplate] object.  Its node-sequence factory stands for
    [NodeSequenceFactory.createFor(template)] of ../dom and is kept as the
    template it was made for. *)
Record CompiledTemplate : Type := {
  nodeFactory : template_src;
  renderContext : ctxref;
  templateDefinition : TemplateDefinition;
}.

(** Modelled from the spec: [ViewFactory] of ./view, "named, holds a
    Compiled Template" and a recycling bound "taken from the normalized
    definition".  The record is the factory as the engine sets it up with
    [new ViewFactory(name, template)] and [setCacheSize(cache, true)]. *)
Record ViewFactory : Type := {
  vf_name : option string;
  vf_template : tref;
  vf_cacheSize : cache_size;
}.

(** The engine and everything it has allocated. *)
Record world : Type := {
  templateLookup : gmap defref tref;
  factoryLookup : gmap defref facref;
  compilers : gmap string ITemplateCompiler;
  templates : list CompiledTemplate;
  factories : list ViewFactory;
  contexts : list RenderContext;
  compilations : list compile_call;
  objects : gmap ref (gmap string value);   (* renderables and what they link to *)
  sequences : nat;                          (* node sequences created so far *)
}.

(** Field updates. *)
Definition with_templateLookup (m : gmap defref tref) (w : world) : world :=
  {| templateLookup := m; factoryLookup := factoryLookup w; compilers := compilers w;
     templates := templates w; factories := factories w; contexts := contexts w;
     compilations := compilations w;
     objects := objects w; sequences := sequences w |}.

Definition with_factoryLookup (m : gmap defref facref) (w : world) : world :=
  {| templateLookup := templateLookup w; factoryLookup := m; compilers := compilers w;
     templates := templates w; factories := factories w; contexts := contexts w;
     compilations := compilations w;
     objects := objects w; sequences := sequences w |}.

Definition with_templates (l : list CompiledTemplate) (w : world) : world :=
  {| templateLookup := templateLookup w; factoryLookup := factoryLookup w;
     compilers := compilers w;
     templates := l; factories := factories w; contexts := contexts w;
     compilations := compilations w;
     objects := objects w; sequences := sequences w |}.

Definition with_factories (l : list ViewFactory) (w : world) : world :=
  {| templateLookup := templateLookup w; factoryLookup := factoryLookup w;
     compilers := compilers w;
     templates := templates w; factories := l; contexts := contexts w;
     compilations := compilations w;
     objects := objects w; sequences := sequences w |}.

Definition with_contexts (l : list RenderContext) (w : world) : world :=
  {| templateLookup := templateLookup w; factoryLookup := factoryLookup w;
     compilers := compilers w;
     templates := templates w; factories := factories w; contexts := l;
     compilations := compilations w;
     objects := objects w; sequences := sequences w |}.

Definition with_objects (h : gmap ref (gmap string value)) (w : world) : world :=
  {| templateLookup := templateLookup w; factoryLookup := factoryLookup w;
     compilers := compilers w;
     templates := templates w; factories := factories w; contexts := contexts w;
     compilations := compilations w;
     objects := h; sequences := sequences w |}.

Definition with_sequences (n : nat) (w : world) : world :=
  {| templateLookup := templateLookup w; factoryLookup := factoryLookup w;
     compilers := compilers w;
     templates := templates w; factories := factories w; contexts := contexts w;
     compilations := compilations w;
     objects := objects w; sequences := n |}.

Definition with_compilations (l : list compile_call) (w : world) : world :=
  {| templateLookup := templateLookup w; factoryLookup := factoryLookup w;
     compilers := compilers w;
     templates := templates w; factories := factories w; contexts := contexts w;
     compilations := l;
     objects := objects w; sequences := sequences w |}.

(** A call on the engine returns a value or throws; either way the world
    is the one the call left behind. *)
Inductive outcome (A : Type) : Type :=
  | Return (a : A) (w : world)
  | Throw (e : error) (w : world).
Arguments Return {A} a w.
Arguments Throw {A} e w.

Definition world_of {A : Type} (o : outcome A) : world :=
  match o with
  | Return _ w | Throw _ w => w
  end.

Definition M (A : Type) : Type := world → outcome A.

#[global] Instance M_ret : MRet M := λ A a w, Return a w.
#[global] Instance M_bind : MBind M := λ A B k m w,
  match m w with
  | Return a w' => k a w'
  | Throw e w' => Throw e w'
  end.

Definition throw {A : Type} (e : error) : M A := λ w, Throw e w.
Definition get_world : M world := λ w, Return w w.
Definition modify (f : world → world) : M unit := λ w, Return tt (f w).

(** [new RenderingEngine(container, ..., templateCompilers)]: the registry
    is the reduce over the compilers, on an object without prototype. *)
Definition RenderingEngine_new (templateCompilers : list ITemplateCompiler) : world :=
  {| templateLookup := ∅;
     factoryLookup := ∅;
     compilers :=
       foldl (λ acc item, <[compiler_name item := item]> acc) ∅ templateCompilers;
     templates := [];
     factories := [];
     contexts := [];
     compilations := [];
     objects := ∅;
     sequences := 0 |}.

Definition defaultCompilerName : string := "default".

(** [definition.build.compiler || defaultCompilerName] *)
Definition compilerName_of (definition : TemplateDefinition) : string :=
  match compiler (build definition) with
  | Some s => if String.eqb s EmptyString then defaultCompilerName else s
  | None => defaultCompilerName
  end.

(** [createRenderContext(renderingEngine, parentRenderContext, dependencies)] *)
Definition createRenderContext (parentRenderContext : ctxref) (deps : option (list nat))
  : M ctxref :=
  w ← get_world;
  let context := Ctx (length (contexts w)) in
  modify (with_contexts (contexts w ++ [RenderContext_new parentRenderContext deps]));;
  mret context.

(** [new CompiledTemplate(renderingEngine, parentRenderContext, templateDefinition)] *)
Definition CompiledTemplate_new (parentRenderContext : ctxref)
  (definition : TemplateDefinition) : M tref :=
  context ← createRenderContext parentRenderContext (dependencies definition);
  w ← get_world;
  let this := Compiled (length (templates w)) in
  modify (with_templates (templates w ++
    [{| nodeFactory := template definition;
        renderContext := context;
        templateDefinition := definition |}]));;
  mret this.

(** [template.renderContext] *)
Definition renderContext_of (w : world) (t : tref) : nullable ctxref :=
  match t with
  | noViewTemplate => JsNull
  | Compiled i =>
      match templates w !! i with
      | Some ct => JsValue (renderContext ct)
      | None => JsUndefined      (* no reference dangles: not reached *)
      end
  end.

(** [componentType.register(context)] *)
Definition register_type (type : nat) (context : ctxref) : M unit :=
  match context with
  | Ctx i =>
      modify (λ w, with_contexts
        (alter (RenderContext_register [ComponentType type]) i (contexts w)) w)
  | Container => mret tt
  end.

(** [noViewTemplate.render(renderable)] *)
Definition noViewTemplate_render (renderable : ref) : M unit :=
  modify (λ w, with_objects (set_prop (objects w) renderable "$nodes" (VRef NodeSequence_empty)) w);;
  modify (λ w, with_objects (set_prop (objects w) renderable "$context" VNull) w).

Section Rendering.
(** [renderer.render(renderable, targets, templateDefinition, host, parts)]
    of the [Renderer] that [createRenderer] bound to the context. *)
Variable Renderer_render :
  ctxref → ref → list ref → TemplateDefinition → nullable ref → nullable parts → M unit.
(** [nodes.findTargets()] *)
Variable findTargets : ref → list ref.

(** [CompiledTemplate.render(renderable, host, parts)] *)
Definition CompiledTemplate_render (this : CompiledTemplate)
  (renderable : ref) (host : nullable ref) (p : nullable parts) : M unit :=
  w ← get_world;
  let nodes := NodeSequence (sequences w) in
  modify (with_sequences (S (sequences w)));;
  modify (λ w, with_objects (set_prop (objects w) renderable "$nodes" (VRef nodes)) w);;
  modify (λ w, with_objects
    (set_prop (objects w) renderable "$context" (VRef (CtxObj (renderContext this)))) w);;
  Renderer_render (renderContext this) renderable (findTargets nodes)
    (templateDefinition this) host p.

(** [template.render(renderable, host, parts)], by the object it is
    called on. *)
Definition ITemplate_render (t : tref)
  (renderable : ref) (host : nullable ref) (p : nullable parts) : M unit :=
  match t with
  | noViewTemplate => noViewTemplate_render renderable
  | Compiled i =>
      w ← get_world;
      match templates w !! i with
      | Some this => CompiledTemplate_render this renderable host p
      | None => throw (TypeError "render")   (* no reference dangles: not reached *)
      end
  end.
End Rendering.

(* ===================================================================== *)
(** ** applyRuntimeBehavior                                               *)
(* ===================================================================== *)

Section RuntimeBehavior.
(** [RuntimeBehavior] of ./runtime-behavior, and its
    [RuntimeBehavior.create(Type, instance)]; types and instances are
    taken by identity. *)
Variable RuntimeBehavior : Type.
Variable RuntimeBehavior_create : nat → ref → RuntimeBehavior.

(** The engine's [behaviorLookup], with the calls it has made so far:
    [created] lists the [create(Type, instance)] calls and [applied] the
    [found.applyTo(instance, changeSet)] calls, oldest first. *)
Record behaviors : Type := {
  behaviorLookup : gmap nat RuntimeBehavior;
  created : list (nat * ref);
  applied : list (RuntimeBehavior * ref);
}.

(** The lookup of a new engine. *)
Definition behaviors_new : behaviors :=
  {| behaviorLookup := ∅; created := []; applied := [] |}.

(** [RenderingEngine.applyRuntimeBehavior(Type, instance)] *)
Definition applyRuntimeBehavior (type : nat) (instance : ref) (s : behaviors) : behaviors :=
  match behaviorLookup s !! type with
  | Some found =>
      {| behaviorLookup := behaviorLookup s;
         created := created s;
         applied := applied s ++ [(found, instance)] |}
  | None =>
      let found := RuntimeBehavior_create type instance in
      {| behaviorLookup := <[type := found]> (behaviorLookup s);
         created := created s ++ [(type, instance)];
         applied := applied s ++ [(found, instance)] |}
  end.

(** One call after another, each a type and an instance of it. *)
Definition applyRuntimeBehaviors (calls : list (nat * ref)) (s : behaviors) : behaviors :=
  foldl (λ s c, applyRuntimeBehavior c.1 c.2 s) s calls.
End RuntimeBehavior.
Arguments behaviorLookup {RuntimeBehavior} _.
Arguments created {RuntimeBehavior} _.
Arguments applied {RuntimeBehavior} _.
Arguments behaviors_new {RuntimeBehavior}.

(** The instance of the first call, among [calls], for the type [type]. *)
Fixpoint first_instance (type : nat) (calls : list (nat * ref)) : option ref :=
  match calls with
  | [] => None
  | c :: calls => if decide (c.1 = type) then Some c.2 else first_instance type calls
  end.

(** The calls a client can make on the engine and on the contexts it
    handed out. *)
Inductive call : Type :=
  | CallGetElementTemplate (definition : nullable defref) (componentType : nullable nat)
  | CallGetViewFactory (definition : nullable defref) (parentContext : nullable ctxref)
  | CallBeginComponentOperation (context : nat)
      (renderable target instruction : nullable ref)
      (f : nullable facref) (p : nullable parts) (location : nullable ref)
  | CallDispose (context : nat)
  | CallResolveViewFactory (context : nat) (requestor : ctxref).

(* ===================================================================== *)
(** ** The rendering engine                                               *)
(* ===================================================================== *)

Section RenderingEngine.
(** The definition objects of the program, by identity. *)
Variable defOf : defref → TemplateDefinition.
(** [buildTemplateDefinition(null, definition)] of ./definition-builder. *)
Variable buildTemplateDefinition : TemplateDefinition → TemplateDefinition.
(** What an ordinary object inherits: the member a property read finds
    on its prototype under a name ([toString], [constructor], ... of
    [Object.prototype]), by identity, and none for the names under which
    the prototype carries nothing truthy. *)
Variable inherited : string → option defref.

(** The fields of a definition object. *)
Definition body (d : defobj) : TemplateDefinition :=
  match d with
  | Supplied d => defOf d
  | Normalised d => buildTemplateDefinition (defOf d)
  end.

(** [RenderingEngine.templateFromSource(definition, parentContext?)];
    every invocation of a compiler is appended to [compilations]. *)
Definition templateFromSource (definition : defobj) (parentContext : nullable ctxref)
  : M tref :=
  let parentContext := or_else parentContext Container in
  if truthy_template (template (body definition)) then
    compiled ←
      (if required (build (body definition)) then
         let compilerName := compilerName_of (body definition) in
         w ← get_world;
         match compilers w !! compilerName with
         | None => throw (ReporterError 20 [compilerName])
         | Some c =>
             modify (λ w, with_compilations (compilations w ++
               [{| call_compiler := compiler_name c;
                   call_definition := definition;
                   call_resources := parentContext |}]) w);;
             mret (compile c (body definition) parentContext surrogate)
         end
       else mret (body definition));
    CompiledTemplate_new parentContext compiled
  else mret noViewTemplate.

(** [RenderingEngine.getElementTemplate(definition, componentType?)].
    The lookup holds template objects only, so [!found] is a miss; and
    [found.renderContext] is null or a context, so the guard of the
    registration is the first branch of the inner match. *)
Definition getElementTemplate (definition : nullable defref) (componentType : nullable nat)
  : M (nullable tref) :=
  match definition with
  | JsValue d =>
      w ← get_world;
      match templateLookup w !! d with
      | Some found => mret (JsValue found)
      | None =>
          found ← templateFromSource (Supplied d) JsUndefined;
          w ← get_world;
          match renderContext_of w found, componentType with
          | JsValue context, JsValue type => register_type type context
          | _, _ => mret tt
          end;;
          modify (λ w, with_templateLookup (<[d := found]> (templateLookup w)) w);;
          mret (JsValue found)
      end
  | JsUndefined | JsNull => mret JsNull
  end.

(** [RenderingEngine.getViewFactory(definition, parentContext?)] *)
Definition getViewFactory (definition : nullable defref) (parentContext : nullable ctxref)
  : M (nullable facref) :=
  match definition with
  | JsValue d =>
      w ← get_world;
      match factoryLookup w !! d with
      | Some f => mret (JsValue f)
      | None =>
          let validSource := buildTemplateDefinition (defOf d) in
          t ← templateFromSource (Normalised d) parentContext;
          w ← get_world;
          let f := length (factories w) in
          modify (with_factories (factories w ++
            [{| vf_name := name validSource;
                vf_template := t;
                vf_cacheSize := cache validSource |}]));;
          modify (λ w, with_factoryLookup (<[d := f]> (factoryLookup w)) w);;
          mret (JsValue f)
      end
  | JsUndefined | JsNull => mret JsNull
  end.

(** [replacements[name]], a property read on an ordinary object: the
    entry the parts hold themselves, else the member they inherit. *)
Definition replacement_for (p : parts) (n : string) : option defref :=
  match p !! n with
  | Some found => Some found
  | None => inherited n
  end.

(** [ViewFactoryProvider.resolve(handler, requestor)]: reading
    [factory.name] of null, or a part of null replacements, is a
    [TypeError]; whatever the read finds, an inherited member too, goes
    to [getViewFactory] as the replacement definition. *)
Definition ViewFactoryProvider_resolve (handler requestor : ctxref)
  (this : ViewFactoryProvider) : M (nullable facref) :=
  match factory this with
  | JsUndefined => throw (ReporterError 50 [])
  | JsNull => throw (TypeError "name")
  | JsValue f =>
      w ← get_world;
      match factories w !! f with
      | None => throw (TypeError "name")   (* no reference dangles: not reached *)
      | Some fobj =>
          if negb (truthy_string (vf_name fobj)) then throw (ReporterError 51 [])
          else
            match replacements this with
            | JsUndefined | JsNull => throw (TypeError (default "" (vf_name fobj)))
            | JsValue p =>
                match replacement_for p (default "" (vf_name fobj)) with
                | Some found => getViewFactory (JsValue found) (JsValue requestor)
                | None => mret (factory this)
                end
            end
      end
  end.

(** The world after a call; a call that throws leaves the world it had
    reached, and the client carries on. *)
Definition perform (c : call) (w : world) : world :=
  match c with
  | CallGetElementTemplate d t =>
      world_of (getElementTemplate d t w)
  | CallGetViewFactory d pc =>
      world_of (getViewFactory d pc w)
  | CallBeginComponentOperation i r t ins f p l =>
      with_contexts (alter (beginComponentOperation r t ins f p l) i (contexts w)) w
  | CallDispose i =>
      with_contexts (alter RenderContext_dispose i (contexts w)) w
  | CallResolveViewFactory i requestor =>
      match contexts w !! i with
      | Some context =>
          world_of (ViewFactoryProvider_resolve
                      (Ctx i) requestor (factoryProvider context) w)
      | None => w
      end
  end.

Definition run (cs : list call) (w : world) : world :=
  foldl (λ w c, perform c w) w cs.

(** How often [compile] was invoked on the caller's definition object [d]. *)
Definition compiled_count (d : defref) (w : world) : nat :=
  length (filter (λ c, call_definition c = Supplied d) (compilations w)).

(** The world after [new CompiledTemplate(...)], having logged the
    compiler invocations [log] before. *)
Definition installed (parentContext : ctxref) (definition : TemplateDefinition)
  (log : list compile_call) (w : world) : world :=
  with_templates
    (templates w ++
       [{| nodeFactory := template definition;
           renderContext := Ctx (length (contexts w));
           templateDefinition := definition |}])
    (with_contexts
       (contexts w ++ [RenderContext_new parentContext (dependencies definition)])
       (with_compilations (compilations w ++ log) w)).

(** What [templateFromSource(d, pc)] returned, [t], and the world [w1]
    it left, from the world [w]: the constant for a definition without
    template, else a new compiled template after at most one invocation
    of a compiler, on [d] itself. *)
Definition built (d : defobj) (pc : nullable ctxref) (w : world) (t : tref) (w1 : world)
  : Prop :=
  (truthy_template (template (body d)) = false ∧ t = noViewTemplate ∧ w1 = w) ∨
  (truthy_template (template (body d)) = true ∧
   t = Compiled (length (templates w)) ∧
   ∃ definition log,
     w1 = installed (or_else pc Container) definition log w ∧
     (log = [] ∨
      ∃ n, log = [{| call_compiler := n; call_definition := d;
                     call_resources := or_else pc Container |}])).

(** [getElementTemplate]'s two steps after [templateFromSource]. *)
Definition self_registered (componentType : nullable nat) (t : tref) (w : world) : world :=
  match renderContext_of w t, componentType with
  | JsValue (Ctx i), JsValue type =>
      with_contexts (alter (RenderContext_register [ComponentType type]) i (contexts w)) w
  | _, _ => w
  end.

Definition cached (d : defref) (t : tref) (w : world) : world :=
  with_templateLookup (<[d := t]> (templateLookup w)) w.

(** [getViewFactory]'s steps after [templateFromSource]. *)
Definition manufactured (d : defref) (t : tref) (w : world) : world :=
  with_factoryLookup (<[d := length (factories w)]> (factoryLookup w))
    (with_factories
       (factories w ++
          [{| vf_name := name (buildTemplateDefinition (defOf d));
              vf_template := t;
              vf_cacheSize := cache (buildTemplateDefinition (defOf d)) |}]) w).

(** A later world keeps what an earlier one had: cache entries, the
    objects allocated, and the parent of every context. *)
Record extends (w w' : world) : Prop := {
  ext_templateLookup : templateLookup w ⊆ templateLookup w';
  ext_factoryLookup : factoryLookup w ⊆ factoryLookup w';
  ext_compilers : compilers w' = compilers w;
  ext_templates : templates w `prefix_of` templates w';
  ext_factories : factories w `prefix_of` factories w';
  ext_contexts : ∀ i c, contexts w !! i = Some c →
    ∃ c', contexts w' !! i = Some c' ∧ parent c' = parent c;
}.

(** The two invariants of the template cache. *)
Definition cache_sound (w : world) : Prop :=
  ∀ d t, templateLookup w !! d = Some t →
    truthy_template (template (defOf d)) = false → t = noViewTemplate.

Definition compiled_once (w : world) : Prop :=
  ∀ d, compiled_count d w ≤ 1 ∧
       (templateLookup w !! d = None → compiled_count d w = 0).

(** The context a factory's template hangs under, if it has one. *)
Definition anchor (w : world) (f : facref) : option ctxref :=
  fobj ← factories w !! f;
  match vf_template fobj with
  | noViewTemplate => None
  | Compiled i =>
      ct ← templates w !! i;
      match renderContext ct with
      | Ctx j => parent <$> contexts w !! j
      | Container => None
      end
  end.

(** No reference of a world dangles, and every compiled template has
    the context that was made with it, and no other. *)
Record well_formed (w : world) : Prop := {
  wf_templateLookup : ∀ d i,
    templateLookup w !! d = Some (Compiled i) → i < length (templates w);
  wf_factoryLookup : ∀ d f,
    factoryLookup w !! d = Some f → f < length (factories w);
  wf_factories : ∀ f fobj i,
    factories w !! f = Some fobj → vf_template fobj = Compiled i →
    i < length (templates w);
  wf_templates : ∀ i ct, templates w !! i = Some ct → renderContext ct = Ctx i;
  wf_contexts : length (contexts w) = length (templates w);
}.

(** No compiled template is referenced at all. *)
Definition unowned (w : world) (i : nat) : Prop :=
  (∀ d, templateLookup w !! d ≠ Some (Compiled i)) ∧
  (∀ f fobj, factories w !! f = Some fobj → vf_template fobj ≠ Compiled i).

(** Every compiled template and every factory has one owner: no two
    definitions share a cached template or a cached factory, no two
    factories share a template, and no factory holds a template of the
    element cache. *)
Record single_owner (w : world) : Prop := {
  own_templateLookup : ∀ d1 d2 i,
    templateLookup w !! d1 = Some (Compiled i) →
    templateLookup w !! d2 = Some (Compiled i) → d1 = d2;
  own_factoryLookup : ∀ d1 d2 f,
    factoryLookup w !! d1 = Some f → factoryLookup w !! d2 = Some f → d1 = d2;
  own_factories : ∀ f1 f2 o1 o2 i,
    factories w !! f1 = Some o1 → factories w !! f2 = Some o2 →
    vf_template o1 = Compiled i → vf_template o2 = Compiled i → f1 = f2;
  own_apart : ∀ d f fobj i,
    templateLookup w !! d = Some (Compiled i) →
    factories w !! f = Some fobj → vf_template fobj ≠ Compiled i;
}.

(** A cached factory is the one [getViewFactory] builds for its
    definition: name and cache size of the normalised definition, and
    [noViewTemplate] exactly when that definition has no template. *)
Definition factories_faithful (w : world) : Prop :=
  ∀ d f, factoryLookup w !! d = Some f →
    ∃ fobj, factories w !! f = Some fobj ∧
      vf_name fobj = name (buildTemplateDefinition (defOf d)) ∧
      vf_cacheSize fobj = cache (buildTemplateDefinition (defOf d)) ∧
      (vf_template fobj = noViewTemplate ↔
       truthy_template (template (buildTemplateDefinition (defOf d))) = false).

(** *** templateFromSource, case by case *)

Ltac step_M :=
  unfold mbind, mret, M_bind, M_ret, get_world, modify, throw; simpl.

Lemma templateFromSource_no_view d pc w :
  truthy_template (template (body d)) = false →
  templateFromSource d pc w = Return noViewTemplate w.
Proof. intros H. unfold templateFromSource. by rewrite H. Qed.

Lemma templateFromSource_prebuilt d pc w :
  truthy_template (template (body d)) = true →
  required (build (body d)) = false →
  templateFromSource d pc w =
  Return (Compiled (length (templates w)))
         (installed (or_else pc Container) (body d) [] w).
Proof.
  intros Ht Hb. unfold templateFromSource. rewrite Ht, Hb.
  unfold installed, with_compilations. destruct w. simpl. by rewrite app_nil_r.
Qed.

Lemma templateFromSource_unknown_compiler d pc w :
  truthy_template (template (body d)) = true →
  required (build (body d)) = true →
  compilers w !! compilerName_of (body d) = None →
  templateFromSource d pc w =
  Throw (ReporterError 20 [compilerName_of (body d)]) w.
Proof.
  intros Ht Hb Hc. unfold templateFromSource. rewrite Ht, Hb.
  step_M. by rewrite Hc.
Qed.

Lemma templateFromSource_compiles d pc w c :
  truthy_template (template (body d)) = true →
  required (build (body d)) = true →
  compilers w !! compilerName_of (body d) = Some c →
  templateFromSource d pc w =
  Return (Compiled (length (templates w)))
         (installed (or_else pc Container)
            (compile c (body d) (or_else pc Container) surrogate)
            [{| call_compiler := compiler_name c;
                call_definition := d;
                call_resources := or_else pc Container |}] w).
Proof.
  intros Ht Hb Hc. unfold templateFromSource. rewrite Ht, Hb.
  step_M. by rewrite Hc.
Qed.

Lemma templateFromSource_cases d pc w :
  (∃ t w1, templateFromSource d pc w = Return t w1 ∧ built d pc w t w1) ∨
  (templateFromSource d pc w = Throw (ReporterError 20 [compilerName_of (body d)]) w ∧
   truthy_template (template (body d)) = true ∧
   required (build (body d)) = true ∧
   compilers w !! compilerName_of (body d) = None).
Proof.
  destruct (truthy_template (template (body d))) eqn:Ht.
  - destruct (required (build (body d))) eqn:Hb.
    + destruct (compilers w !! compilerName_of (body d)) as [c|] eqn:Hc.
      * left. eexists _, _. split; [by apply templateFromSource_compiles|].
        right. split; [done|]. split; [done|]. eexists _, _. split; [done|].
        right. by eexists.
      * right. split; [by apply templateFromSource_unknown_compiler|done].
    + left. eexists _, _. split; [by apply templateFromSource_prebuilt|].
      right. split; [done|]. split; [done|]. eexists _, _. split; [done|].
      by left.
  - left. eexists _, _. split; [by apply templateFromSource_no_view|].
    left. done.
Qed.

(** *** getElementTemplate and getViewFactory, case by case *)

Lemma getElementTemplate_falsy v componentType w :
  truthy v = false → getElementTemplate v componentType w = Return JsNull w.
Proof. by destruct v. Qed.

Lemma getElementTemplate_hit d componentType w t :
  templateLookup w !! d = Some t →
  getElementTemplate (JsValue d) componentType w = Return (JsValue t) w.
Proof. intros H. unfold getElementTemplate. step_M. by rewrite H. Qed.

Lemma getElementTemplate_miss d componentType w :
  templateLookup w !! d = None →
  getElementTemplate (JsValue d) componentType w =
  match templateFromSource (Supplied d) JsUndefined w with
  | Return t w1 => Return (JsValue t) (cached d t (self_registered componentType t w1))
  | Throw e w1 => Throw e w1
  end.
Proof.
  intros H. unfold getElementTemplate. step_M. rewrite H.
  destruct (templateFromSource _ _ w) as [t w1|e w1]; [|done].
  unfold self_registered, cached.
  destruct (renderContext_of w1 t) as [| |[|i]], componentType as [| |type]; done.
Qed.

Lemma getViewFactory_falsy v parentContext w :
  truthy v = false → getViewFactory v parentContext w = Return JsNull w.
Proof. by destruct v. Qed.

Lemma getViewFactory_hit d parentContext w f :
  factoryLookup w !! d = Some f →
  getViewFactory (JsValue d) parentContext w = Return (JsValue f) w.
Proof. intros H. unfold getViewFactory. step_M. by rewrite H. Qed.

Lemma getViewFactory_miss d parentContext w :
  factoryLookup w !! d = None →
  getViewFactory (JsValue d) parentContext w =
  match templateFromSource (Normalised d) parentContext w with
  | Return t w1 => Return (JsValue (length (factories w1))) (manufactured d t w1)
  | Throw e w1 => Throw e w1
  end.
Proof.
  intros H. unfold getViewFactory. step_M. rewrite H.
  by destruct (templateFromSource _ _ w) as [t w1|e w1].
Qed.

(** *** Worlds only grow *)

Lemma extends_refl w : extends w w.
Proof. split; try done. intros i c Hc. by exists c. Qed.

Lemma extends_trans w1 w2 w3 : extends w1 w2 → extends w2 w3 → extends w1 w3.
Proof.
  intros [A1 B1 C1 D1 E1 F1] [A2 B2 C2 D2 E2 F2]. split.
  - by etrans.
  - by etrans.
  - congruence.
  - by etrans.
  - by etrans.
  - intros i c Hc. destruct (F1 _ _ Hc) as (c' & Hc' & Hp).
    destruct (F2 _ _ Hc') as (c'' & Hc'' & Hp'). exists c''. split; [done|congruence].
Qed.

Lemma installed_extends pc definition log w :
  extends w (installed pc definition log w).
Proof.
  split; simpl; try done.
  - by apply prefix_app_r.
  - intros i c Hc. exists c. split; [|done].
    by apply lookup_app_l_Some.
Qed.

Lemma built_extends d pc w t w1 : built d pc w t w1 → extends w w1.
Proof.
  intros [(_ & _ & ->)|(_ & _ & definition & log & -> & _)].
  - apply extends_refl.
  - apply installed_extends.
Qed.

Lemma self_registered_extends componentType t w :
  extends w (self_registered componentType t w).
Proof.
  unfold self_registered.
  destruct (renderContext_of w t) as [| |[|i]], componentType as [| |type];
    try apply extends_refl.
  split; simpl; try done.
  intros j c Hc. destruct (decide (i = j)) as [->|Hne].
  - exists (RenderContext_register [ComponentType type] c). split; [|done].
    by rewrite list_lookup_alter_eq, Hc.
  - exists c. split; [|done]. by rewrite list_lookup_alter_ne.
Qed.

Lemma cached_extends d t w :
  templateLookup w !! d = None → extends w (cached d t w).
Proof.
  intros H. split; simpl; try done.
  - by apply insert_subseteq.
  - intros i c Hc. by exists c.
Qed.

Lemma manufactured_extends d t w :
  factoryLookup w !! d = None → extends w (manufactured d t w).
Proof.
  intros H. split; simpl; try done.
  - by apply insert_subseteq.
  - by apply prefix_app_r.
  - intros i c Hc. by exists c.
Qed.

Lemma getElementTemplate_extends v componentType w :
  extends w (world_of (getElementTemplate v componentType w)).
Proof.
  destruct v as [| |d]; try apply extends_refl.
  destruct (templateLookup w !! d) as [t|] eqn:Hd.
  - rewrite (getElementTemplate_hit _ _ _ _ Hd). apply extends_refl.
  - rewrite (getElementTemplate_miss _ _ _ Hd).
    destruct (templateFromSource_cases (Supplied d) JsUndefined w)
      as [(t & w1 & -> & Hb)|(-> & _)]; [|apply extends_refl].
    simpl. pose proof (built_extends _ _ _ _ _ Hb) as E1.
    eapply extends_trans; [exact E1|].
    eapply extends_trans; [apply self_registered_extends|].
    apply cached_extends.
    assert (templateLookup (self_registered componentType t w1) = templateLookup w) as ->;
      [|done].
    unfold self_registered.
    assert (templateLookup w1 = templateLookup w) as <-.
    { by destruct Hb as [(_ & _ & ->)|(_ & _ & definition & log & -> & _)]. }
    by destruct (renderContext_of w1 t) as [| |[|i]], componentType as [| |type].
Qed.

Lemma getViewFactory_extends v parentContext w :
  extends w (world_of (getViewFactory v parentContext w)).
Proof.
  destruct v as [| |d]; try apply extends_refl.
  destruct (factoryLookup w !! d) as [f|] eqn:Hd.
  - rewrite (getViewFactory_hit _ _ _ _ Hd). apply extends_refl.
  - rewrite (getViewFactory_miss _ _ _ Hd).
    destruct (templateFromSource_cases (Normalised d) parentContext w)
      as [(t & w1 & -> & Hb)|(-> & _)]; [|apply extends_refl].
    simpl. eapply extends_trans; [exact (built_extends _ _ _ _ _ Hb)|].
    apply manufactured_extends.
    assert (factoryLookup w1 = factoryLookup w) as ->; [|done].
    by destruct Hb as [(_ & _ & ->)|(_ & _ & definition & log & -> & _)].
Qed.

Lemma alter_contexts_extends (g : RenderContext → RenderContext) i w :
  (∀ c, parent (g c) = parent c) →
  extends w (with_contexts (alter g i (contexts w)) w).
Proof.
  intros Hg. split; simpl; try done.
  intros j c Hc. destruct (decide (i = j)) as [->|Hne].
  - exists (g c). split; [|apply Hg].
    by rewrite list_lookup_alter_eq, Hc.
  - exists c. split; [|done]. by rewrite list_lookup_alter_ne.
Qed.

Lemma ViewFactoryProvider_resolve_unfold handler requestor this w :
  ViewFactoryProvider_resolve handler requestor this w =
  match factory this with
  | JsUndefined => Throw (ReporterError 50 []) w
  | JsNull => Throw (TypeError "name") w
  | JsValue f =>
      match factories w !! f with
      | None => Throw (TypeError "name") w
      | Some fobj =>
          if negb (truthy_string (vf_name fobj)) then Throw (ReporterError 51 []) w
          else
            match replacements this with
            | JsUndefined | JsNull => Throw (TypeError (default "" (vf_name fobj))) w
            | JsValue p =>
                match replacement_for p (default "" (vf_name fobj)) with
                | Some found => getViewFactory (JsValue found) (JsValue requestor) w
                | None => Return (factory this) w
                end
            end
      end
  end.
Proof.
  unfold ViewFactoryProvider_resolve.
  destruct (factory this) as [| |f]; try done.
  unfold mbind, M_bind, get_world.
  destruct (factories w !! f) as [fobj|]; [|done].
  destruct (negb (truthy_string (vf_name fobj))); [done|].
  destruct (replacements this) as [| |p]; try done.
  by destruct (replacement_for p (default "" (vf_name fobj))).
Qed.

Lemma ViewFactoryProvider_resolve_extends handler requestor this w :
  extends w (world_of (ViewFactoryProvider_resolve handler requestor this w)).
Proof.
  rewrite ViewFactoryProvider_resolve_unfold.
  destruct (factory this) as [| |f]; try apply extends_refl.
  destruct (factories w !! f) as [fobj|]; [|apply extends_refl].
  destruct (negb (truthy_string (vf_name fobj))); [apply extends_refl|].
  destruct (replacements this) as [| |p]; try apply extends_refl.
  destruct (replacement_for p (default "" (vf_name fobj))) as [found|]; [|apply extends_refl].
  apply getViewFactory_extends.
Qed.

Lemma perform_extends c w : extends w (perform c w).
Proof.
  destruct c; simpl.
  - apply getElementTemplate_extends.
  - apply getViewFactory_extends.
  - by apply alter_contexts_extends.
  - by apply alter_contexts_extends.
  - destruct (contexts w !! context); [|apply extends_refl].
    apply ViewFactoryProvider_resolve_extends.
Qed.

Lemma run_snoc cs c w : run (cs ++ [c]) w = perform c (run cs w).
Proof. unfold run. by rewrite foldl_app. Qed.

Lemma run_app cs cs' w : run (cs ++ cs') w = run cs' (run cs w).
Proof. unfold run. by rewrite foldl_app. Qed.

Lemma run_extends cs w : extends w (run cs w).
Proof.
  induction cs as [|c cs IH] using rev_ind.
  - apply extends_refl.
  - rewrite run_snoc. eapply extends_trans; [exact IH|apply perform_extends].
Qed.

(** *** The invariants of the template cache *)

Lemma built_log d pc w t w1 :
  built d pc w t w1 →
  templateLookup w1 = templateLookup w ∧
  ∃ log, compilations w1 = compilations w ++ log ∧
         length log ≤ 1 ∧
         Forall (λ c, call_definition c = d) log.
Proof.
  intros [(_ & _ & ->)|(_ & _ & definition & log & -> & Hlog)].
  - split; [done|]. exists []. rewrite app_nil_r.
    split; [done|]. split; [simpl; lia|constructor].
  - split; [done|]. exists log. split; [done|].
    destruct Hlog as [->|[n ->]]; simpl; (split; [lia|]); repeat constructor.
Qed.

Lemma compiled_count_app d w w' log :
  compilations w' = compilations w ++ log →
  compiled_count d w' =
  compiled_count d w + length (filter (λ c, call_definition c = Supplied d) log).
Proof.
  intros H. unfold compiled_count. by rewrite H, filter_app, length_app.
Qed.

Lemma other_definition_not_counted d (d' : defobj) log :
  d' ≠ Supplied d →
  Forall (λ c, call_definition c = d') log →
  filter (λ c, call_definition c = Supplied d) log = [].
Proof.
  intros Hne Hall. induction Hall as [|c log Hc _ IH]; [done|].
  rewrite filter_cons_False; [done|congruence].
Qed.

Lemma invariants_transfer w w' :
  templateLookup w' = templateLookup w →
  (∀ d, compiled_count d w' = compiled_count d w) →
  cache_sound w → compiled_once w →
  cache_sound w' ∧ compiled_once w'.
Proof.
  intros Hl Hc Hs Ho. split.
  - intros d t. rewrite Hl. apply Hs.
  - intros d. rewrite Hl, Hc. apply Ho.
Qed.

Lemma getViewFactory_keeps_templates v parentContext w :
  templateLookup (world_of (getViewFactory v parentContext w)) = templateLookup w ∧
  ∀ d, compiled_count d (world_of (getViewFactory v parentContext w))
       = compiled_count d w.
Proof.
  destruct v as [| |d0]; try done.
  destruct (factoryLookup w !! d0) as [f|] eqn:Hd.
  - by rewrite (getViewFactory_hit _ _ _ _ Hd).
  - rewrite (getViewFactory_miss _ _ _ Hd).
    destruct (templateFromSource_cases (Normalised d0) parentContext w)
      as [(t & w1 & -> & Hb)|(-> & _)]; [|done].
    destruct (built_log _ _ _ _ _ Hb) as (Hl & log & Hc & _ & Hall).
    cbn [world_of]. split; [done|]. intros d.
    rewrite (compiled_count_app d w (manufactured d0 t w1) log) by done.
    rewrite (other_definition_not_counted d (Normalised d0)); [simpl; lia|done|done].
Qed.

Lemma ViewFactoryProvider_resolve_keeps_templates handler requestor this w :
  templateLookup (world_of (ViewFactoryProvider_resolve handler requestor this w))
  = templateLookup w ∧
  ∀ d, compiled_count d (world_of (ViewFactoryProvider_resolve handler requestor this w))
       = compiled_count d w.
Proof.
  rewrite ViewFactoryProvider_resolve_unfold.
  destruct (factory this) as [| |f]; try done.
  destruct (factories w !! f) as [fobj|]; [|done].
  destruct (negb (truthy_string (vf_name fobj))); [done|].
  destruct (replacements this) as [| |p]; try done.
  destruct (replacement_for p (default "" (vf_name fobj))) as [found|]; [|done].
  apply getViewFactory_keeps_templates.
Qed.

Lemma self_registered_templateLookup componentType t w :
  templateLookup (self_registered componentType t w) = templateLookup w ∧
  compilations (self_registered componentType t w) = compilations w.
Proof.
  unfold self_registered.
  by destruct (renderContext_of w t) as [| |[|i]], componentType as [| |type].
Qed.

Lemma getElementTemplate_invariants v componentType w :
  cache_sound w → compiled_once w →
  cache_sound (world_of (getElementTemplate v componentType w)) ∧
  compiled_once (world_of (getElementTemplate v componentType w)).
Proof.
  intros Hs Ho.
  destruct v as [| |d0]; try done.
  destruct (templateLookup w !! d0) as [t0|] eqn:Hd.
  { by rewrite (getElementTemplate_hit _ _ _ _ Hd). }
  rewrite (getElementTemplate_miss _ _ _ Hd).
  destruct (templateFromSource_cases (Supplied d0) JsUndefined w)
    as [(t & w1 & -> & Hb)|(-> & _)]; [|done].
  destruct (built_log _ _ _ _ _ Hb) as (Hl & log & Hc & Hlen & Hall).
  destruct (self_registered_templateLookup componentType t w1) as [Hl' Hc'].
  simpl. split.
  - intros d t'. simpl. rewrite Hl', Hl.
    destruct (decide (d0 = d)) as [<-|Hne].
    + rewrite lookup_insert_eq. intros [= <-] Hfalsy.
      destruct Hb as [(_ & -> & _)|(Htruthy & _)]; [done|].
      simpl in Htruthy. congruence.
    + rewrite lookup_insert_ne by done. apply Hs.
  - intros d.
    rewrite (compiled_count_app d w _ log) by (simpl; congruence).
    simpl. rewrite Hl', Hl.
    destruct (decide (d0 = d)) as [<-|Hne].
    + rewrite lookup_insert_eq. split; [|done].
      destruct (Ho d0) as [_ Hzero]. rewrite (Hzero Hd).
      pose proof (length_filter (λ c, call_definition c = Supplied d0) log). lia.
    + rewrite lookup_insert_ne by done.
      rewrite (other_definition_not_counted d (Supplied d0));
        [|congruence|done].
      simpl. rewrite Nat.add_0_r. apply Ho.
Qed.

Lemma perform_invariants c w :
  cache_sound w → compiled_once w →
  cache_sound (perform c w) ∧ compiled_once (perform c w).
Proof.
  intros Hs Ho. destruct c; simpl.
  - by apply getElementTemplate_invariants.
  - destruct (getViewFactory_keeps_templates definition parentContext w) as [A B].
    by apply (invariants_transfer w).
  - by apply (invariants_transfer w).
  - by apply (invariants_transfer w).
  - destruct (contexts w !! context) as [c|]; [|done].
    destruct (ViewFactoryProvider_resolve_keeps_templates
                (Ctx context) requestor (factoryProvider c) w) as [A B].
    by apply (invariants_transfer w).
Qed.

Lemma run_invariants cs templateCompilers :
  cache_sound (run cs (RenderingEngine_new templateCompilers)) ∧
  compiled_once (run cs (RenderingEngine_new templateCompilers)).
Proof.
  induction cs as [|c cs [IHs IHo]] using rev_ind.
  - split.
    + intros d t H. simpl in H. by rewrite lookup_empty in H.
    + intros d. unfold compiled_count. simpl. split; [lia|done].
  - rewrite run_snoc. by apply perform_invariants.
Qed.

Lemma run_compilers cs w : compilers (run cs w) = compilers w.
Proof. apply ext_compilers, run_extends. Qed.

(** The registry built by the constructor: a name is bound to the last
    compiler of the array that carries it. *)
Lemma registry_lookup templateCompilers n :
  compilers (RenderingEngine_new templateCompilers) !! n =
  last (filter (λ c, compiler_name c = n) templateCompilers).
Proof.
  simpl. induction templateCompilers as [|c cs IH] using rev_ind; [done|].
  rewrite foldl_app, filter_app. simpl.
  destruct (decide (compiler_name c = n)) as [<-|Hne].
  - rewrite lookup_insert_eq, filter_cons_True by done.
    rewrite filter_nil. by rewrite last_snoc.
  - rewrite lookup_insert_ne, filter_cons_False by done.
    rewrite filter_nil, app_nil_r. apply IH.
Qed.

Lemma registry_unregistered templateCompilers n :
  Forall (λ c, compiler_name c ≠ n) templateCompilers →
  compilers (RenderingEngine_new templateCompilers) !! n = None.
Proof.
  intros Hall. rewrite registry_lookup.
  replace (filter (λ c, compiler_name c = n) templateCompilers) with (@nil ITemplateCompiler);
    [done|].
  symmetry. induction Hall as [|c cs Hc _ IH]; [done|].
  by rewrite filter_cons_False.
Qed.

Lemma anchor_extends w w' f a :
  extends w w' → anchor w f = Some a → anchor w' f = Some a.
Proof.
  intros E. unfold anchor.
  destruct (factories w !! f) as [fobj|] eqn:Hf; [|done]. simpl.
  rewrite (prefix_lookup_Some _ _ _ _ Hf (ext_factories _ _ E)). simpl.
  destruct (vf_template fobj) as [|i]; [done|].
  destruct (templates w !! i) as [ct|] eqn:Ht; [|done]. simpl.
  rewrite (prefix_lookup_Some _ _ _ _ Ht (ext_templates _ _ E)). simpl.
  destruct (renderContext ct) as [|j]; [done|].
  destruct (contexts w !! j) as [c|] eqn:Hc; [|done]. simpl.
  destruct (ext_contexts _ _ E _ _ Hc) as (c' & -> & Hp). simpl. congruence.
Qed.

(** *** The claims about the engine *)

(** C2.  In every world a run of calls on a new engine can reach,
    getElementTemplate(D) either returns a template, and then every
    later call for D, with any component type and after any further
    calls, returns that same template object and changes nothing, with
    compile invoked at most once on D over the whole run; or it throws
    the unknown-compiler error and leaves the world as it was. *)
Theorem getElementTemplate_memoized
  (templateCompilers : list ITemplateCompiler) (cs : list call)
  (D : defref) (componentType : nullable nat) :
  let w := run cs (RenderingEngine_new templateCompilers) in
  match getElementTemplate (JsValue D) componentType w with
  | Return r w1 =>
      ∃ t, r = JsValue t ∧
        ∀ cs' componentType',
          getElementTemplate (JsValue D) componentType' (run cs' w1)
          = Return (JsValue t) (run cs' w1) ∧
          compiled_count D (run cs' w1) ≤ 1
  | Throw e w1 =>
      w1 = w ∧
      e = ReporterError 20 [compilerName_of (defOf D)] ∧
      compilers w !! compilerName_of (defOf D) = None ∧
      compiled_count D w1 ≤ 1
  end.
Proof.
  intros w.
  assert (Hlater : ∀ r w1 t,
    getElementTemplate (JsValue D) componentType w = Return r w1 →
    r = JsValue t → templateLookup w1 !! D = Some t →
    ∀ cs' componentType',
      getElementTemplate (JsValue D) componentType' (run cs' w1)
      = Return (JsValue t) (run cs' w1) ∧
      compiled_count D (run cs' w1) ≤ 1).
  { intros r w1 t Hcall -> Ht cs' componentType'. split.
    - apply getElementTemplate_hit.
      eapply lookup_weaken; [exact Ht|].
      apply ext_templateLookup, run_extends.
    - assert (run cs' w1 =
              run (cs ++ [CallGetElementTemplate (JsValue D) componentType] ++ cs')
                  (RenderingEngine_new templateCompilers)) as ->.
      { rewrite run_app, run_app. fold w.
        change (run [CallGetElementTemplate (JsValue D) componentType] w)
          with (world_of (getElementTemplate (JsValue D) componentType w)).
        by rewrite Hcall. }
      apply run_invariants. }
  destruct (templateLookup w !! D) as [t|] eqn:Hd.
  - pose proof (getElementTemplate_hit D componentType w t Hd) as Hcall.
    rewrite Hcall. exists t. split; [done|]. by eapply Hlater.
  - pose proof (getElementTemplate_miss D componentType w Hd) as Hcall.
    destruct (templateFromSource_cases (Supplied D) JsUndefined w)
      as [(t & w1 & Htfs & Hb)|(Htfs & _ & _ & Hc)]; rewrite Htfs in Hcall.
    + rewrite Hcall. exists t. split; [done|].
      eapply Hlater; [exact Hcall|done|]. simpl. apply lookup_insert_eq.
    + rewrite Hcall. split; [done|]. split; [done|]. split; [done|].
      apply (run_invariants cs templateCompilers).
Qed.

(** C4.  For a definition with a template that requires a build,
    templateFromSource looks the compiler up under the definition's
    compiler name, which is the name the definition's build gives when it
    gives a non-empty one and default when it gives none or the empty
    one, in the registry as the constructor filled it: with a compiler
    under that name it compiles with it and wraps the result; with none
    it throws error 20 carrying that name and leaves the world untouched,
    so no template is made. *)
Theorem templateFromSource_unknown_compiler_is_fatal
  (templateCompilers : list ITemplateCompiler) (cs : list call)
  (d : defobj) (parentContext : nullable ctxref) :
  let w := run cs (RenderingEngine_new templateCompilers) in
  let n := compilerName_of (body d) in
  truthy_template (template (body d)) = true →
  required (build (body d)) = true →
  (compiler (build (body d)) = None → n = "default") ∧
  (compiler (build (body d)) = Some "" → n = "default") ∧
  (∀ s, compiler (build (body d)) = Some s → s ≠ "" → n = s) ∧
  (∀ c, last (filter (λ c, compiler_name c = n) templateCompilers) = Some c →
     templateFromSource d parentContext w =
     Return (Compiled (length (templates w)))
            (installed (or_else parentContext Container)
               (compile c (body d) (or_else parentContext Container) surrogate)
               [{| call_compiler := compiler_name c;
                   call_definition := d;
                   call_resources := or_else parentContext Container |}] w)) ∧
  (Forall (λ c, compiler_name c ≠ n) templateCompilers →
     templateFromSource d parentContext w = Throw (ReporterError 20 [n]) w).
Proof.
  intros w n Ht Hb. split; [|split; [|split; [|split]]].
  - intros Hc. unfold n, compilerName_of. by rewrite Hc.
  - intros Hc. unfold n, compilerName_of. by rewrite Hc.
  - intros s Hc Hs. unfold n, compilerName_of. rewrite Hc.
    by apply String.eqb_neq in Hs as ->.
  - intros c Hc. apply templateFromSource_compiles; [done|done|].
    unfold w. rewrite run_compilers. by rewrite registry_lookup.
  - intros Hall. apply templateFromSource_unknown_compiler; [done|done|].
    unfold w. rewrite run_compilers. by apply registry_unregistered.
Qed.

(** C6.  For a falsy definition, getElementTemplate and getViewFactory
    return null and leave the whole world, caches and compiler log
    included, as it was. *)
Theorem falsy_definition_returns_null
  (v : nullable defref) (componentType : nullable nat)
  (parentContext : nullable ctxref) (w : world) :
  truthy v = false →
  getElementTemplate v componentType w = Return JsNull w ∧
  getViewFactory v parentContext w = Return JsNull w.
Proof.
  intros Hv. split.
  - by apply getElementTemplate_falsy.
  - by apply getViewFactory_falsy.
Qed.

(** C9.  Once getViewFactory(D, c1) has returned a factory, every later
    getViewFactory(D, c2), after any further calls and for every c2,
    returns that factory and changes nothing; and when the first call
    built the factory from a definition with a template, the context of
    the factory's template hangs under c1 (the container when c1 is
    absent) and stays there. *)
Theorem getViewFactory_ignores_parentContext_on_hit
  (w : world) (D : defref) (c1 : nullable ctxref) (f : facref) (w1 : world) :
  getViewFactory (JsValue D) c1 w = Return (JsValue f) w1 →
  (∀ cs c2,
     getViewFactory (JsValue D) c2 (run cs w1) = Return (JsValue f) (run cs w1)) ∧
  (factoryLookup w !! D = None →
   truthy_template (template (buildTemplateDefinition (defOf D))) = true →
   ∀ cs, anchor (run cs w1) f = Some (or_else c1 Container)).
Proof.
  intros Hcall.
  destruct (factoryLookup w !! D) as [f0|] eqn:Hd.
  - rewrite (getViewFactory_hit _ c1 _ _ Hd) in Hcall. simplify_eq. split; [|done].
    intros cs c2. apply getViewFactory_hit.
    eapply lookup_weaken; [exact Hd|]. apply ext_factoryLookup, run_extends.
  - rewrite (getViewFactory_miss _ c1 _ Hd) in Hcall.
    destruct (templateFromSource_cases (Normalised D) c1 w)
      as [(t & w0 & Htfs & Hb)|(Htfs & _)]; rewrite Htfs in Hcall; [|done].
    simplify_eq. split.
    + intros cs c2. apply getViewFactory_hit.
      eapply lookup_weaken; [|apply ext_factoryLookup, run_extends].
      simpl. apply lookup_insert_eq.
    + intros _ Htruthy cs.
      eapply anchor_extends; [apply run_extends|].
      destruct Hb as [(Hfalsy & _)|(_ & -> & definition & log & -> & _)].
      { simpl in Hfalsy. congruence. }
      unfold anchor. simpl.
      rewrite lookup_app_r by done. rewrite Nat.sub_diag. simpl.
      rewrite lookup_app_r by done. rewrite Nat.sub_diag. simpl.
      rewrite lookup_app_r by done. rewrite Nat.sub_diag. done.
Qed.


(** *** Ownership of what the engine allocates *)

Lemma built_result d pc w t w1 :
  built d pc w t w1 →
  templateLookup w1 = templateLookup w ∧
  factoryLookup w1 = factoryLookup w ∧
  factories w1 = factories w ∧
  ((t = noViewTemplate ∧ w1 = w) ∨
   (∃ ct c, t = Compiled (length (templates w)) ∧
      templates w1 = templates w ++ [ct] ∧
      renderContext ct = Ctx (length (contexts w)) ∧
      contexts w1 = contexts w ++ [c] ∧
      parent c = or_else pc Container)).
Proof.
  intros [(_ & -> & ->)|(_ & -> & definition & log & -> & _)].
  - repeat split; try done. by left.
  - repeat split; try done. right. by eexists _, _.
Qed.

Lemma owners_transfer w w' :
  templateLookup w' = templateLookup w →
  factoryLookup w' = factoryLookup w →
  factories w' = factories w →
  (single_owner w → single_owner w') ∧
  (factories_faithful w → factories_faithful w') ∧
  (∀ i, unowned w i → unowned w' i).
Proof.
  intros Ht Hf Hfs. split; [|split].
  - intros [A B C D]. split; rewrite ?Ht, ?Hf, ?Hfs; eauto.
  - intros H d f. rewrite Hf, Hfs. apply H.
  - intros i [A B]. split; rewrite ?Ht, ?Hfs; eauto.
Qed.

Lemma well_formed_contexts l w :
  length l = length (contexts w) → well_formed w → well_formed (with_contexts l w).
Proof.
  intros Hl [A B C D E]. split; simpl; eauto. congruence.
Qed.

Lemma built_well_formed d pc w t w1 :
  well_formed w → built d pc w t w1 →
  well_formed w1 ∧ ∀ i, t = Compiled i → i < length (templates w1) ∧ unowned w1 i.
Proof.
  intros Hwf Hb.
  destruct (built_result _ _ _ _ _ Hb) as (Ht & Hf & Hfs & [(-> & ->)|Hnew]).
  { split; [done|]. intros i; discriminate. }
  destruct Hnew as (ct & c & -> & Hts & Hct & Hcs & _).
  destruct Hwf as [A B C D E].
  split.
  - split.
    + intros d0 i. rewrite Ht, Hts, length_app. intros H%A. lia.
    + intros d0 f. rewrite Hf, Hfs. apply B.
    + intros f fobj i. rewrite Hfs, Hts, length_app. intros H1 H2.
      pose proof (C _ _ _ H1 H2). lia.
    + intros i ct'. rewrite Hts. intros H.
      apply lookup_app_Some in H as [H|[Hge H]]; [by apply D|].
      destruct (i - length (templates w)) as [|k] eqn:Hk; simplify_eq/=.
      rewrite Hct, E. f_equal. lia.
    + rewrite Hts, Hcs, !length_app. simpl. lia.
  - intros i [= <-]. rewrite Hts, length_app. simpl. split; [lia|]. split.
    + intros d0. rewrite Ht. intros H%A. lia.
    + intros f fobj. rewrite Hfs. intros H1 H2. pose proof (C _ _ _ H1 H2). lia.
Qed.

Lemma self_registered_fields componentType t w :
  templateLookup (self_registered componentType t w) = templateLookup w ∧
  factoryLookup (self_registered componentType t w) = factoryLookup w ∧
  templates (self_registered componentType t w) = templates w ∧
  factories (self_registered componentType t w) = factories w ∧
  length (contexts (self_registered componentType t w)) = length (contexts w).
Proof.
  unfold self_registered.
  destruct (renderContext_of w t) as [| |[|i]], componentType as [| |type];
    repeat split; simpl; try done.
  apply length_alter.
Qed.

Lemma self_registered_well_formed componentType t w :
  well_formed w → well_formed (self_registered componentType t w).
Proof.
  destruct (self_registered_fields componentType t w) as (A & B & C & D & E).
  intros [F G H I J]. split; rewrite ?A, ?B, ?C, ?D, ?E; eauto.
Qed.

Lemma cached_ownership d t w :
  well_formed w → single_owner w → factories_faithful w →
  (∀ i, t = Compiled i → i < length (templates w) ∧ unowned w i) →
  well_formed (cached d t w) ∧ single_owner (cached d t w) ∧
  factories_faithful (cached d t w).
Proof.
  intros [A B C D E] [F G H I] Hff Hnew. split; [|split].
  - split; simpl; eauto.
    intros d0 i. destruct (decide (d = d0)) as [<-|Hne].
    + rewrite lookup_insert_eq. intros [= ->]. by apply Hnew.
    + rewrite lookup_insert_ne by done. apply A.
  - split; simpl; eauto.
    + intros d1 d2 i.
      destruct (decide (d = d1)) as [<-|H1], (decide (d = d2)) as [<-|H2];
        rewrite ?lookup_insert_eq, ?lookup_insert_ne by done; try done.
      * intros [= ->] H2'. destruct (Hnew i eq_refl) as [_ [Hu _]]. by destruct (Hu d2).
      * intros H1' [= ->]. destruct (Hnew i eq_refl) as [_ [Hu _]]. by destruct (Hu d1).
      * apply F.
    + intros d0 f fobj i. destruct (decide (d = d0)) as [<-|Hne].
      * rewrite lookup_insert_eq. intros [= ->] Hf.
        destruct (Hnew i eq_refl) as [_ [_ Hu]]. by apply (Hu f).
      * rewrite lookup_insert_ne by done. apply I.
  - exact Hff.
Qed.

Lemma manufactured_ownership d t w :
  well_formed w → single_owner w → factories_faithful w →
  (∀ i, t = Compiled i → i < length (templates w) ∧ unowned w i) →
  (t = noViewTemplate ↔
   truthy_template (template (buildTemplateDefinition (defOf d))) = false) →
  well_formed (manufactured d t w) ∧ single_owner (manufactured d t w) ∧
  factories_faithful (manufactured d t w).
Proof.
  intros [A B C D E] [F G H I] Hff Hnew Hnoview. split; [|split].
  - split; simpl; eauto.
    + intros d0 f. rewrite length_app. simpl.
      destruct (decide (d = d0)) as [<-|Hne].
      * rewrite lookup_insert_eq. intros [= <-]. lia.
      * rewrite lookup_insert_ne by done. intros H0%B. lia.
    + intros f fobj i Hf Ht.
      apply lookup_app_Some in Hf as [Hf|[Hge Hf]]; [by eapply C|].
      destruct (f - length (factories w)) as [|k] eqn:Hk; simplify_eq/=.
      by apply Hnew.
  - split; simpl; eauto.
    + intros d1 d2 f.
      destruct (decide (d = d1)) as [<-|H1], (decide (d = d2)) as [<-|H2];
        rewrite ?lookup_insert_eq, ?lookup_insert_ne by done; try done.
      * intros [= <-] H2'%B. lia.
      * intros H1'%B [= <-]. lia.
      * apply G.
    + intros f1 f2 o1 o2 i H1 H2 T1 T2.
      apply lookup_app_Some in H1 as [H1|[Hge1 H1]],
            H2 as [H2|[Hge2 H2]].
      * by eapply H.
      * destruct (f2 - length (factories w)) as [|k]; simplify_eq/=.
        destruct (Hnew i eq_refl) as [_ [_ Hu]]. by destruct (Hu f1 o1).
      * destruct (f1 - length (factories w)) as [|k]; simplify_eq/=.
        destruct (Hnew i eq_refl) as [_ [_ Hu]]. by destruct (Hu f2 o2).
      * destruct (f1 - length (factories w)) as [|k1] eqn:E1; simplify_eq/=.
        destruct (f2 - length (factories w)) as [|k2] eqn:E2; simplify_eq/=.
        lia.
    + intros d0 f fobj i Hd Hf.
      apply lookup_app_Some in Hf as [Hf|[Hge Hf]]; [by eapply I|].
      destruct (f - length (factories w)) as [|k]; simplify_eq/=.
      intros Ht. destruct (Hnew i Ht) as [_ [Hu _]]. by destruct (Hu d0).
  - intros d0 f. simpl. destruct (decide (d = d0)) as [<-|Hne].
    + rewrite lookup_insert_eq. intros [= <-].
      eexists. split; [|split; [|split]].
      * rewrite lookup_app_r by done. by rewrite Nat.sub_diag.
      * done.
      * done.
      * done.
    + rewrite lookup_insert_ne by done. intros Hf.
      destruct (Hff _ _ Hf) as (fobj & Hfobj & Hrest).
      exists fobj. split; [|done]. by apply lookup_app_l_Some.
Qed.

Lemma getElementTemplate_ownership v componentType w :
  well_formed w → single_owner w → factories_faithful w →
  well_formed (world_of (getElementTemplate v componentType w)) ∧
  single_owner (world_of (getElementTemplate v componentType w)) ∧
  factories_faithful (world_of (getElementTemplate v componentType w)).
Proof.
  intros Hwf Hso Hff.
  destruct v as [| |d]; try done.
  destruct (templateLookup w !! d) as [t0|] eqn:Hd.
  { by rewrite (getElementTemplate_hit _ _ _ _ Hd). }
  rewrite (getElementTemplate_miss _ _ _ Hd).
  destruct (templateFromSource_cases (Supplied d) JsUndefined w)
    as [(t & w1 & -> & Hb)|(-> & _)]; [|done].
  cbn [world_of].
  destruct (built_well_formed _ _ _ _ _ Hwf Hb) as [Hwf1 Hnew1].
  destruct (built_result _ _ _ _ _ Hb) as (Ht & Hf & Hfs & _).
  destruct (owners_transfer w w1 Ht Hf Hfs) as (Hso1 & Hff1 & _).
  destruct (self_registered_fields componentType t w1) as (A & B & C & D & E).
  destruct (owners_transfer w1 (self_registered componentType t w1) A B D)
    as (Hso2 & Hff2 & Hun2).
  apply cached_ownership; eauto using self_registered_well_formed.
  intros i Hi. destruct (Hnew1 i Hi) as [Hlt Hun]. rewrite C. eauto.
Qed.

Lemma getViewFactory_ownership v parentContext w :
  well_formed w → single_owner w → factories_faithful w →
  well_formed (world_of (getViewFactory v parentContext w)) ∧
  single_owner (world_of (getViewFactory v parentContext w)) ∧
  factories_faithful (world_of (getViewFactory v parentContext w)).
Proof.
  intros Hwf Hso Hff.
  destruct v as [| |d]; try done.
  destruct (factoryLookup w !! d) as [f0|] eqn:Hd.
  { by rewrite (getViewFactory_hit _ _ _ _ Hd). }
  rewrite (getViewFactory_miss _ _ _ Hd).
  destruct (templateFromSource_cases (Normalised d) parentContext w)
    as [(t & w1 & -> & Hb)|(-> & _)]; [|done].
  cbn [world_of].
  destruct (built_well_formed _ _ _ _ _ Hwf Hb) as [Hwf1 Hnew1].
  destruct (built_result _ _ _ _ _ Hb) as (Ht & Hf & Hfs & _).
  destruct (owners_transfer w w1 Ht Hf Hfs) as (Hso1 & Hff1 & _).
  apply manufactured_ownership; eauto.
  destruct Hb as [(Hfalsy & -> & _)|(Htruthy & -> & _)]; simpl in *.
  - done.
  - split; [discriminate|congruence].
Qed.

Lemma alter_contexts_ownership (g : RenderContext → RenderContext) i w :
  well_formed w → single_owner w → factories_faithful w →
  well_formed (with_contexts (alter g i (contexts w)) w) ∧
  single_owner (with_contexts (alter g i (contexts w)) w) ∧
  factories_faithful (with_contexts (alter g i (contexts w)) w).
Proof.
  intros Hwf Hso Hff.
  split; [apply well_formed_contexts; [apply length_alter|done]|].
  destruct (owners_transfer w (with_contexts (alter g i (contexts w)) w))
    as (A & B & _); eauto.
Qed.

Lemma ViewFactoryProvider_resolve_ownership handler requestor this w :
  well_formed w → single_owner w → factories_faithful w →
  well_formed (world_of (ViewFactoryProvider_resolve handler requestor this w)) ∧
  single_owner (world_of (ViewFactoryProvider_resolve handler requestor this w)) ∧
  factories_faithful (world_of (ViewFactoryProvider_resolve handler requestor this w)).
Proof.
  intros Hwf Hso Hff.
  rewrite ViewFactoryProvider_resolve_unfold.
  destruct (factory this) as [| |f]; try done.
  destruct (factories w !! f) as [fobj|]; [|done].
  destruct (negb (truthy_string (vf_name fobj))); [done|].
  destruct (replacements this) as [| |p]; try done.
  destruct (replacement_for p (default "" (vf_name fobj))) as [found|]; [|done].
  by apply getViewFactory_ownership.
Qed.

Lemma perform_ownership c w :
  well_formed w → single_owner w → factories_faithful w →
  well_formed (perform c w) ∧ single_owner (perform c w) ∧
  factories_faithful (perform c w).
Proof.
  intros Hwf Hso Hff. destruct c; simpl.
  - by apply getElementTemplate_ownership.
  - by apply getViewFactory_ownership.
  - by apply alter_contexts_ownership.
  - by apply alter_contexts_ownership.
  - destruct (contexts w !! context) as [c|]; [|done].
    by apply ViewFactoryProvider_resolve_ownership.
Qed.

Lemma run_ownership cs templateCompilers :
  well_formed (run cs (RenderingEngine_new templateCompilers)) ∧
  single_owner (run cs (RenderingEngine_new templateCompilers)) ∧
  factories_faithful (run cs (RenderingEngine_new templateCompilers)).
Proof.
  induction cs as [|c cs (IH1 & IH2 & IH3)] using rev_ind.
  - split; [|split].
    + split; simpl; try done; intros *; by rewrite ?lookup_empty.
    + split; simpl; intros *; by rewrite ?lookup_empty.
    + intros d f. simpl. by rewrite lookup_empty.
  - rewrite run_snoc. by apply perform_ownership.
Qed.

(** *** More about the engine *)

Lemma getElementTemplate_keeps_factories v componentType w :
  factoryLookup (world_of (getElementTemplate v componentType w)) = factoryLookup w ∧
  factories (world_of (getElementTemplate v componentType w)) = factories w.
Proof.
  destruct v as [| |d]; try done.
  destruct (templateLookup w !! d) as [t0|] eqn:Hd.
  { by rewrite (getElementTemplate_hit _ _ _ _ Hd). }
  rewrite (getElementTemplate_miss _ _ _ Hd).
  destruct (templateFromSource_cases (Supplied d) JsUndefined w)
    as [(t & w1 & -> & Hb)|(-> & _)]; [|done].
  cbn [world_of].
  destruct (built_result _ _ _ _ _ Hb) as (_ & Hf & Hfs & _).
  destruct (self_registered_fields componentType t w1) as (_ & B & _ & D & _).
  simpl. by rewrite B, D, Hf, Hfs.
Qed.

(** X1.  The registry the constructor builds binds a name to the last
    compiler of the array that carries it, so a later compiler replaces an
    earlier one of the same name; a name no compiler carries is unbound;
    and no call on the engine ever changes the registry. *)
Theorem registry_keeps_last_compiler_of_a_name
  (templateCompilers : list ITemplateCompiler) (cs : list call) (n : string) :
  compilers (run cs (RenderingEngine_new templateCompilers)) !! n =
  last (filter (λ c, compiler_name c = n) templateCompilers).
Proof. rewrite run_compilers. apply registry_lookup. Qed.

(** X2.  templateFromSource throws exactly when the definition has a
    template, requires a build and names a compiler that is not
    registered; and it invokes a compiler exactly when the definition has
    a template, requires a build and the compiler is registered, once,
    with the parent context (the container when none is given) as the
    place to look resources up.  A definition without template, or one
    already built, never reaches the registry. *)
Theorem templateFromSource_fails_and_compiles_exactly_when
  (d : defobj) (parentContext : nullable ctxref) (w : world) :
  let needs_build :=
    truthy_template (template (body d)) && required (build (body d)) in
  ((∃ e w', templateFromSource d parentContext w = Throw e w') ↔
   (needs_build = true ∧ compilers w !! compilerName_of (body d) = None)) ∧
  compilations (world_of (templateFromSource d parentContext w)) =
  compilations w ++
  match compilers w !! compilerName_of (body d) with
  | Some c =>
      if needs_build
      then [{| call_compiler := compiler_name c;
               call_definition := d;
               call_resources := or_else parentContext Container |}]
      else []
  | None => []
  end.
Proof.
  intros needs_build. unfold needs_build.
  destruct (truthy_template (template (body d))) eqn:Ht; simpl.
  - destruct (required (build (body d))) eqn:Hb.
    + destruct (compilers w !! compilerName_of (body d)) as [c|] eqn:Hc.
      * rewrite (templateFromSource_compiles _ parentContext _ _ Ht Hb Hc).
        split; [|done]. split; [by intros (e & w' & ?)|by intros [_ ?]].
      * rewrite (templateFromSource_unknown_compiler _ parentContext _ Ht Hb Hc).
        split; [|simpl; by rewrite app_nil_r]. split; [done|]. intros _. by eexists _, _.
    + rewrite (templateFromSource_prebuilt _ parentContext _ Ht Hb).
      split; [split; [by intros (e & w' & ?)|by intros [? _]]|].
      simpl. by destruct (compilers w !! compilerName_of (body d)).
  - rewrite (templateFromSource_no_view _ parentContext _ Ht).
    split; [split; [by intros (e & w' & ?)|by intros [? _]]|].
    destruct (compilers w !! compilerName_of (body d)); simpl; by rewrite app_nil_r.
Qed.

(** X3.  getViewFactory on a definition either returns a factory, which
    is then the cached one for that definition, or throws the
    unknown-compiler error for the normalised definition, and then the
    world is exactly as before: nothing was cached or allocated. *)
Theorem getViewFactory_returns_cached_or_fails_cleanly
  (D : defref) (parentContext : nullable ctxref) (w : world) :
  match getViewFactory (JsValue D) parentContext w with
  | Return r w1 => ∃ f, r = JsValue f ∧ factoryLookup w1 !! D = Some f
  | Throw e w1 =>
      w1 = w ∧
      e = ReporterError 20 [compilerName_of (buildTemplateDefinition (defOf D))] ∧
      factoryLookup w !! D = None ∧
      truthy_template (template (buildTemplateDefinition (defOf D))) = true ∧
      required (build (buildTemplateDefinition (defOf D))) = true ∧
      compilers w !! compilerName_of (buildTemplateDefinition (defOf D)) = None
  end.
Proof.
  destruct (factoryLookup w !! D) as [f|] eqn:Hd.
  - rewrite (getViewFactory_hit _ _ _ _ Hd). by exists f.
  - rewrite (getViewFactory_miss _ _ _ Hd).
    destruct (templateFromSource_cases (Normalised D) parentContext w)
      as [(t & w1 & -> & Hb)|(-> & ? & ? & ?)]; [|done].
    eexists. split; [done|]. simpl. apply lookup_insert_eq.
Qed.

(** X4.  In every world a run of calls on a new engine can reach, no
    reference dangles: a cached compiled template exists and has its own
    context, which exists; a cached factory exists, and so does its
    template with its context; and there are exactly as many contexts as
    compiled templates, template i owning context i. *)
Theorem reachable_world_has_no_dangling_reference
  (templateCompilers : list ITemplateCompiler) (cs : list call) :
  let w := run cs (RenderingEngine_new templateCompilers) in
  (∀ i, i < length (templates w) →
     ∃ ct c, templates w !! i = Some ct ∧ renderContext ct = Ctx i ∧
             contexts w !! i = Some c) ∧
  (∀ d i, templateLookup w !! d = Some (Compiled i) → i < length (templates w)) ∧
  (∀ d f, factoryLookup w !! d = Some f →
     ∃ fobj, factories w !! f = Some fobj ∧
             ∀ i, vf_template fobj = Compiled i → i < length (templates w)) ∧
  length (contexts w) = length (templates w).
Proof.
  intros w. subst w.
  destruct (run_ownership cs templateCompilers) as [[A B C D E] _].
  set (w := run cs (RenderingEngine_new templateCompilers)) in *.
  split; [|split; [|split]]; try done.
  - intros i Hi.
    destruct (lookup_lt_is_Some_2 (templates w) i Hi) as [ct Hct].
    destruct (lookup_lt_is_Some_2 (contexts w) i ltac:(lia)) as [c Hc].
    exists ct, c. eauto.
  - intros d f Hf.
    destruct (lookup_lt_is_Some_2 (factories w) f (B _ _ Hf)) as [fobj Hfobj].
    exists fobj. eauto.
Qed.

(** X5.  In every reachable world each compiled template and each factory
    has one owner: two different definitions never share a cached
    compiled template or a cached factory, also when their contents are
    the same; two factories never share a compiled template; and a
    factory never holds a template of the element cache. *)
Theorem compiled_objects_have_one_owner
  (templateCompilers : list ITemplateCompiler) (cs : list call) :
  let w := run cs (RenderingEngine_new templateCompilers) in
  (∀ d1 d2 i, templateLookup w !! d1 = Some (Compiled i) →
              templateLookup w !! d2 = Some (Compiled i) → d1 = d2) ∧
  (∀ d1 d2 f, factoryLookup w !! d1 = Some f →
              factoryLookup w !! d2 = Some f → d1 = d2) ∧
  (∀ f1 f2 o1 o2 i, factories w !! f1 = Some o1 → factories w !! f2 = Some o2 →
              vf_template o1 = Compiled i → vf_template o2 = Compiled i → f1 = f2) ∧
  (∀ d f fobj i, templateLookup w !! d = Some (Compiled i) →
              factories w !! f = Some fobj → vf_template fobj ≠ Compiled i).
Proof.
  intros w. destruct (run_ownership cs templateCompilers) as (_ & [A B C D] & _).
  by repeat split.
Qed.

(** X6.  In every reachable world the factory cached for a definition
    carries the name and the cache size of the normalised definition
    (what buildTemplateDefinition returned), not of the definition that
    keys the cache, and is over noViewTemplate exactly when the
    normalised definition has no template. *)
Theorem cached_factory_comes_from_normalised_definition
  (templateCompilers : list ITemplateCompiler) (cs : list call)
  (D : defref) (f : facref) :
  let w := run cs (RenderingEngine_new templateCompilers) in
  factoryLookup w !! D = Some f →
  ∃ fobj, factories w !! f = Some fobj ∧
    vf_name fobj = name (buildTemplateDefinition (defOf D)) ∧
    vf_cacheSize fobj = cache (buildTemplateDefinition (defOf D)) ∧
    (vf_template fobj = noViewTemplate ↔
     truthy_template (template (buildTemplateDefinition (defOf D))) = false).
Proof.
  intros w. destruct (run_ownership cs templateCompilers) as (_ & _ & H). apply H.
Qed.

(** X8.  The two caches are separate.  getViewFactory never writes the
    template cache and never invokes a compiler on the caller's own
    definition object; getElementTemplate never writes the factory cache
    and never makes a factory.  So a factory for D gives no element
    template for D, and the other way round. *)
Theorem element_and_factory_caches_are_separate
  (v : nullable defref) (componentType : nullable nat)
  (parentContext : nullable ctxref) (w : world) :
  templateLookup (world_of (getViewFactory v parentContext w)) = templateLookup w ∧
  (∀ d, compiled_count d (world_of (getViewFactory v parentContext w))
        = compiled_count d w) ∧
  factoryLookup (world_of (getElementTemplate v componentType w)) = factoryLookup w ∧
  factories (world_of (getElementTemplate v componentType w)) = factories w.
Proof.
  destruct (getViewFactory_keeps_templates v parentContext w) as [A B].
  destruct (getElementTemplate_keeps_factories v componentType w) as [C D].
  done.
Qed.

(** X9.  Nothing is ever evicted or replaced: whatever calls follow, a
    cached template and a cached factory stay cached for their
    definition, every factory and compiled template object stays what it
    was, every context keeps its parent, and the registry of compilers
    stays as constructed. *)
Theorem caches_never_evict (cs : list call) (w : world) :
  (∀ d t, templateLookup w !! d = Some t → templateLookup (run cs w) !! d = Some t) ∧
  (∀ d f, factoryLookup w !! d = Some f → factoryLookup (run cs w) !! d = Some f) ∧
  (∀ i ct, templates w !! i = Some ct → templates (run cs w) !! i = Some ct) ∧
  (∀ f fobj, factories w !! f = Some fobj → factories (run cs w) !! f = Some fobj) ∧
  (∀ i c, contexts w !! i = Some c →
     ∃ c', contexts (run cs w) !! i = Some c' ∧ parent c' = parent c) ∧
  compilers (run cs w) = compilers w.
Proof.
  destruct (run_extends cs w) as [A B C D E F].
  repeat split; try done.
  - intros d t H. by eapply lookup_weaken.
  - intros d f H. by eapply lookup_weaken.
  - intros i ct H. by eapply prefix_lookup_Some.
  - intros f fobj H. by eapply prefix_lookup_Some.
Qed.


(** X7.  The first getElementTemplate for a definition with a template
    makes one compiled template, stencilled from the definition the
    template keeps: the definition itself when it requires no build, the
    output of the compiler registered under its compiler name when it
    does.  It makes one context for it and touches no older one.  That
    context hangs under the container, whatever context asked; its five
    providers are unprepared; and it holds the declared dependencies of
    the kept definition, in order, and after them the component type when
    one was given, and nothing else. *)
Theorem getElementTemplate_first_build_registers_component_type
  (w : world) (D : defref) (componentType : nullable nat)
  (r : nullable tref) (w1 : world) :
  templateLookup w !! D = None →
  truthy_template (template (defOf D)) = true →
  getElementTemplate (JsValue D) componentType w = Return r w1 →
  ∃ ct c,
    r = JsValue (Compiled (length (templates w))) ∧
    templates w1 = templates w ++ [ct] ∧
    renderContext ct = Ctx (length (contexts w)) ∧
    nodeFactory ct = template (templateDefinition ct) ∧
    (required (build (defOf D)) = false → templateDefinition ct = defOf D) ∧
    (required (build (defOf D)) = true →
     ∃ k, compilers w !! compilerName_of (defOf D) = Some k ∧
          templateDefinition ct = compile k (defOf D) Container surrogate) ∧
    contexts w1 = contexts w ++ [c] ∧
    parent c = Container ∧
    registered c =
      match dependencies (templateDefinition ct) with
      | Some ds => Dependency <$> ds
      | None => []
      end ++
      match componentType with
      | JsValue type => [ComponentType type]
      | JsUndefined | JsNull => []
      end ∧
    instance (renderableProvider c) = JsNull ∧
    instance (elementProvider c) = JsNull ∧
    instance (instructionProvider c) = JsNull ∧
    instance (renderLocationProvider c) = JsNull ∧
    factory (factoryProvider c) = JsUndefined ∧
    replacements (factoryProvider c) = JsUndefined.
Proof.
  intros Hd Ht Hcall.
  rewrite (getElementTemplate_miss _ _ _ Hd) in Hcall.
  assert (Hshape : ∀ definition log,
    let w0 := installed Container definition log w in
    cached D (Compiled (length (templates w)))
      (self_registered componentType (Compiled (length (templates w))) w0) = w1 →
    templates w1 = templates w ++
      [{| nodeFactory := template definition;
          renderContext := Ctx (length (contexts w));
          templateDefinition := definition |}] ∧
    contexts w1 = contexts w ++
      [match componentType with
       | JsValue type =>
           RenderContext_register [ComponentType type]
             (RenderContext_new Container (dependencies definition))
       | JsUndefined | JsNull => RenderContext_new Container (dependencies definition)
       end]).
  { intros definition log w0 <-. unfold self_registered, w0. simpl.
    rewrite lookup_app_r by done. rewrite Nat.sub_diag. simpl.
    destruct componentType as [| |type]; simpl; try done.
    split; [done|].
    rewrite <- (Nat.add_0_r (length (contexts w))).
    by rewrite alter_app_r. }
  assert (Hcontext : ∀ definition,
    let c := match componentType with
             | JsValue type =>
                 RenderContext_register [ComponentType type]
                   (RenderContext_new Container (dependencies definition))
             | JsUndefined | JsNull => RenderContext_new Container (dependencies definition)
             end in
    parent c = Container ∧
    registered c =
      match dependencies definition with
      | Some ds => Dependency <$> ds
      | None => []
      end ++
      match componentType with
      | JsValue type => [ComponentType type]
      | JsUndefined | JsNull => []
      end ∧
    instance (renderableProvider c) = JsNull ∧
    instance (elementProvider c) = JsNull ∧
    instance (instructionProvider c) = JsNull ∧
    instance (renderLocationProvider c) = JsNull ∧
    factory (factoryProvider c) = JsUndefined ∧
    replacements (factoryProvider c) = JsUndefined).
  { intros definition c. unfold c.
    destruct componentType as [| |type]; simpl; by rewrite ?app_nil_r. }
  destruct (required (build (defOf D))) eqn:Hb.
  - destruct (compilers w !! compilerName_of (defOf D)) as [k|] eqn:Hc.
    + rewrite (templateFromSource_compiles (Supplied D) JsUndefined w k Ht Hb Hc) in Hcall.
      injection Hcall as <- Hw1.
      destruct (Hshape _ _ Hw1) as [-> ->].
      eexists. eexists. split; [done|]. split; [done|]. split; [done|]. split; [done|].
      split; [done|]. split; [intros _; by exists k|]. split; [done|].
      apply Hcontext.
    + by rewrite (templateFromSource_unknown_compiler (Supplied D) JsUndefined w Ht Hb Hc)
        in Hcall.
  - rewrite (templateFromSource_prebuilt (Supplied D) JsUndefined w Ht Hb) in Hcall.
    injection Hcall as <- Hw1.
    destruct (Hshape _ _ Hw1) as [-> ->].
    eexists. eexists. split; [done|]. split; [done|]. split; [done|]. split; [done|].
    split; [done|]. split; [done|]. split; [done|].
    apply Hcontext.
Qed.

(** X10.  The first getElementTemplate, in a reachable world, for a
    definition with a template that requires a build under a registered
    name invokes that compiler exactly once on the definition object
    itself, with the container as the context to look resources up,
    whether or not a definition of the same contents was compiled
    before. *)
Theorem getElementTemplate_first_request_compiles_once
  (templateCompilers : list ITemplateCompiler) (cs : list call)
  (D : defref) (componentType : nullable nat) (c : ITemplateCompiler) :
  let w := run cs (RenderingEngine_new templateCompilers) in
  templateLookup w !! D = None →
  truthy_template (template (defOf D)) = true →
  required (build (defOf D)) = true →
  compilers w !! compilerName_of (defOf D) = Some c →
  ∃ w1,
    getElementTemplate (JsValue D) componentType w
    = Return (JsValue (Compiled (length (templates w)))) w1 ∧
    compilations w1 = compilations w ++
      [{| call_compiler := compiler_name c;
          call_definition := Supplied D;
          call_resources := Container |}] ∧
    compiled_count D w = 0 ∧
    compiled_count D w1 = 1.
Proof.
  intros w Hd Ht Hb Hc.
  rewrite (getElementTemplate_miss _ _ _ Hd).
  rewrite (templateFromSource_compiles (Supplied D) JsUndefined w c Ht Hb Hc).
  eexists. split; [done|].
  destruct (self_registered_templateLookup componentType (Compiled (length (templates w)))
    (installed Container (compile c (defOf D) Container surrogate)
       [{| call_compiler := compiler_name c; call_definition := Supplied D;
           call_resources := Container |}] w)) as [_ Hlog].
  assert (Hzero : compiled_count D w = 0).
  { destruct (run_invariants cs templateCompilers) as [_ Honce].
    by apply (Honce D). }
  split; [simpl; by rewrite Hlog|]. split; [done|].
  erewrite compiled_count_app; [|simpl; rewrite Hlog; reflexivity].
  rewrite Hzero. simpl. by rewrite filter_cons_True.
Qed.


(** X12.  A default factory without a name, absent or empty, is fatal:
    resolve throws error 51 before the parts are looked at, whether or not
    they hold a replacement, and changes nothing. *)
Theorem unnamed_factory_cannot_be_resolved
  (handler requestor : ctxref) (this : ViewFactoryProvider)
  (F : facref) (P : nullable parts) (fobj : ViewFactory) (w : world) :
  factories w !! F = Some fobj →
  truthy_string (vf_name fobj) = false →
  ViewFactoryProvider_resolve handler requestor
    (ViewFactoryProvider_prepare (JsValue F) P this) w
  = Throw (ReporterError 51 []) w.
Proof.
  intros HF Hname. rewrite ViewFactoryProvider_resolve_unfold.
  unfold ViewFactoryProvider_prepare. cbn [factory replacements].
  by rewrite HF, Hname.
Qed.

(** X13.  A resolve that throws leaves the world exactly as it was: the
    provider's own failures come before anything is built, and a failure
    inside getViewFactory is the unknown-compiler error, raised before any
    allocation. *)
Theorem ViewFactoryProvider_resolve_failure_changes_nothing
  (handler requestor : ctxref) (this : ViewFactoryProvider)
  (w : world) (e : error) (w' : world) :
  ViewFactoryProvider_resolve handler requestor this w = Throw e w' →
  w' = w ∧
  (e = ReporterError 50 [] ∨ e = ReporterError 51 [] ∨
   (∃ p, e = TypeError p) ∨ (∃ n, e = ReporterError 20 [n] ∧ compilers w !! n = None)).
Proof.
  rewrite ViewFactoryProvider_resolve_unfold.
  destruct (factory this) as [| |f].
  - intros [= <- <-]. split; [done|]. by left.
  - intros [= <- <-]. split; [done|]. right. right. left. by eexists.
  - destruct (factories w !! f) as [fobj|].
    + destruct (negb (truthy_string (vf_name fobj))).
      * intros [= <- <-]. split; [done|]. right. by left.
      * destruct (replacements this) as [| |p].
        -- intros [= <- <-]. split; [done|]. right. right. left. by eexists.
        -- intros [= <- <-]. split; [done|]. right. right. left. by eexists.
        -- destruct (replacement_for p (default "" (vf_name fobj))) as [found|]; [|done].
           intros Hcall.
           destruct (factoryLookup w !! found) as [f0|] eqn:Hd.
           { by rewrite (getViewFactory_hit _ _ _ _ Hd) in Hcall. }
           rewrite (getViewFactory_miss _ _ _ Hd) in Hcall.
           destruct (templateFromSource_cases (Normalised found) (JsValue requestor) w)
             as [(t & w0 & Htfs & Hb)|(Htfs & _ & _ & Hc)]; rewrite Htfs in Hcall; [done|].
           injection Hcall as <- <-. split; [done|]. right. right. right. by eexists.
    + intros [= <- <-]. split; [done|]. right. right. left. by eexists.
Qed.

Lemma getViewFactory_miss_anchor D parentContext w r w1 :
  factoryLookup w !! D = None →
  truthy_template (template (buildTemplateDefinition (defOf D))) = true →
  getViewFactory (JsValue D) parentContext w = Return r w1 →
  r = JsValue (length (factories w)) ∧
  anchor w1 (length (factories w)) = Some (or_else parentContext Container).
Proof.
  intros Hd Htruthy Hcall.
  rewrite (getViewFactory_miss _ _ _ Hd) in Hcall.
  destruct (templateFromSource_cases (Normalised D) parentContext w)
    as [(t & w0 & Htfs & Hb)|(Htfs & _)]; rewrite Htfs in Hcall; [|done].
  destruct Hb as [(Hfalsy & _)|(_ & -> & definition & log & -> & _)].
  { simpl in Hfalsy. congruence. }
  injection Hcall as <- <-. split; [done|].
  unfold anchor. simpl.
  rewrite lookup_app_r by done. rewrite Nat.sub_diag. simpl.
  rewrite lookup_app_r by done. rewrite Nat.sub_diag. simpl.
  rewrite lookup_app_r by done. rewrite Nat.sub_diag. done.
Qed.

(** X21.  The factory of a replacement is built under the context that
    first asks for it: when resolve finds a replacement definition with a
    template that has no factory yet, the new factory's template hangs
    under the requestor of that call, and it stays there whatever calls
    follow, also for requestors that resolve the same replacement
    later. *)
Theorem replacement_factory_is_anchored_at_first_requestor
  (handler requestor : ctxref) (this : ViewFactoryProvider)
  (F : facref) (P : nullable parts) (fobj : ViewFactory) (n : string) (R : defref)
  (w : world) (r : nullable facref) (w1 : world) :
  factories w !! F = Some fobj →
  vf_name fobj = Some n →
  n ≠ "" →
  or_else P emptyObject !! n = Some R →
  factoryLookup w !! R = None →
  truthy_template (template (buildTemplateDefinition (defOf R))) = true →
  ViewFactoryProvider_resolve handler requestor
    (ViewFactoryProvider_prepare (JsValue F) P this) w = Return r w1 →
  r = JsValue (length (factories w)) ∧
  ∀ cs, anchor (run cs w1) (length (factories w)) = Some requestor.
Proof.
  intros HF Hname Hn HR Hmiss Htruthy Hcall.
  assert (Hnamed : negb (truthy_string (vf_name fobj)) = false).
  { rewrite Hname. simpl. apply negb_false_iff, negb_true_iff.
    by apply String.eqb_neq. }
  rewrite ViewFactoryProvider_resolve_unfold in Hcall.
  unfold ViewFactoryProvider_prepare in Hcall. cbn [factory replacements] in Hcall.
  rewrite HF, Hnamed, Hname in Hcall. cbn [default from_option] in Hcall.
  unfold id, replacement_for in Hcall. rewrite HR in Hcall.
  destruct (getViewFactory_miss_anchor _ _ _ _ _ Hmiss Htruthy Hcall) as [-> Hanchor].
  split; [done|]. intros cs.
  eapply anchor_extends; [apply run_extends|exact Hanchor].
Qed.
(** X22.  A name the parts do not hold is still looked up on what they
    inherit: when the default factory carries the name of an inherited
    member, with parts given or absent, resolve hands that member to
    getViewFactory as if it were the replacement definition, and does not
    return the default factory by the way of the last line. *)
Theorem inherited_member_is_taken_for_a_replacement
  (handler requestor : ctxref) (this : ViewFactoryProvider)
  (F : facref) (P : nullable parts) (fobj : ViewFactory) (n : string) (m : defref)
  (w : world) :
  factories w !! F = Some fobj →
  vf_name fobj = Some n →
  n ≠ "" →
  or_else P emptyObject !! n = None →
  inherited n = Some m →
  ViewFactoryProvider_resolve handler requestor
    (ViewFactoryProvider_prepare (JsValue F) P this) w
  = getViewFactory (JsValue m) (JsValue requestor) w.
Proof.
  intros HF Hname Hn HP Hm.
  assert (Htruthy : negb (truthy_string (vf_name fobj)) = false).
  { rewrite Hname. simpl. apply negb_false_iff, negb_true_iff.
    by apply String.eqb_neq. }
  rewrite ViewFactoryProvider_resolve_unfold.
  unfold ViewFactoryProvider_prepare. cbn [factory replacements].
  rewrite HF, Htruthy, Hname. cbn [default from_option]. unfold id, replacement_for.
  by rewrite HP, Hm.
Qed.

End RenderingEngine.

(* ===================================================================== *)
(** * Properties                                                          *)
(* ===================================================================== *)

(** ** Reading and writing properties *)

Lemma get_set_prop h o p v o' p' :
  get_prop (set_prop h o p v) o' p' =
  if decide (o = o' ∧ p = p') then v else get_prop h o' p'.
Proof.
  unfold get_prop, set_prop.
  destruct (decide (o = o')) as [<-|Ho].
  - rewrite lookup_insert_eq.
    destruct (decide (p = p')) as [<-|Hp].
    + rewrite lookup_insert_eq. by rewrite decide_True.
    + rewrite lookup_insert_ne by done.
      rewrite decide_False; [|intros [_ ?]; done].
      by destruct (h !! o).
  - rewrite lookup_insert_ne by done.
    rewrite decide_False; [done|intros [? _]; done].
Qed.

Lemma get_set_prop_eq h o p v : get_prop (set_prop h o p v) o p = v.
Proof. rewrite get_set_prop. by rewrite decide_True. Qed.

Lemma get_set_prop_ne h o p v o' p' :
  (o, p) ≠ (o', p') → get_prop (set_prop h o p v) o' p' = get_prop h o' p'.
Proof.
  intros H. rewrite get_set_prop. rewrite decide_False; [done|].
  intros [-> ->]. by apply H.
Qed.

Lemma addBindable_append renderable bindable h :
  addBindable renderable bindable h =
  append "$bindableHead" "$bindableTail" "$prevBind" "$nextBind" renderable bindable h.
Proof. reflexivity. Qed.

Lemma addAttachable_append renderable attachable h :
  addAttachable renderable attachable h =
  append "$attachableHead" "$attachableTail" "$prevAttach" "$nextAttach"
    renderable attachable h.
Proof. reflexivity. Qed.

(** ** The lifecycle lists *)

Section Append.
Variables head tail prev next : string.
Hypothesis names : NoDup [head; tail; prev; next].

Local Ltac names_differ :=
  let H := fresh in
  intros H; simplify_eq;
  repeat match goal with
         | N : NoDup (_ :: _) |- _ => apply NoDup_cons in N as [? N]
         end; set_solver.

Lemma head_tail : head ≠ tail. Proof using names. names_differ. Qed.
Lemma head_prev : head ≠ prev. Proof using names. names_differ. Qed.
Lemma head_next : head ≠ next. Proof using names. names_differ. Qed.
Lemma tail_prev : tail ≠ prev. Proof using names. names_differ. Qed.
Lemma tail_next : tail ≠ next. Proof using names. names_differ. Qed.
Lemma prev_next : prev ≠ next. Proof using names. names_differ. Qed.

Lemma linked_nil h owner :
  get_prop h owner head = VNull → get_prop h owner tail = VNull →
  linked head tail prev next h owner [].
Proof. intros Hh Ht. split; [constructor|done|done|done|done]. Qed.

(** The two writes to the new node leave the owner's tail alone, also
    when the owner is the node. *)
Lemma tail_kept h owner node v v' :
  get_prop (set_prop (set_prop h node prev v) node next v') owner tail =
  get_prop h owner tail.
Proof using names.
  rewrite !get_set_prop_ne; [done| |]; intros [= _ E]; symmetry in E;
    first [by apply tail_prev in E | by apply tail_next in E].
Qed.

(** What [append] returns, by the tail it finds. *)
Lemma append_empty h owner node :
  get_prop h owner tail = VNull →
  append head tail prev next owner node h =
  Done (set_prop (set_prop (set_prop (set_prop h node prev VNull) node next VNull)
                    owner head (VRef node)) owner tail (VRef node)).
Proof using names.
  intros Ht. unfold append. rewrite !tail_kept, Ht.
  by rewrite decide_True.
Qed.

Lemma append_nonempty h owner node t :
  get_prop h owner tail = VRef t →
  append head tail prev next owner node h =
  Done (set_prop (set_prop (set_prop (set_prop h node prev (VRef t)) node next VNull)
                    t next (VRef node)) owner tail (VRef node)).
Proof using names.
  intros Ht. unfold append. rewrite !tail_kept, Ht.
  by rewrite decide_False.
Qed.

Local Ltac reads :=
  pose proof head_tail; pose proof head_prev; pose proof head_next;
  pose proof tail_prev; pose proof tail_next; pose proof prev_next;
  repeat (rewrite get_set_prop;
          let Hd := fresh "Hd" in
          case_decide as Hd;
          [destruct Hd as [? ?]; try (exfalso; congruence)
          |try (exfalso; apply Hd; split; congruence)]).

(** Appending to a well-formed list gives the well-formed list with
    the node at its end. *)
Lemma append_linked h owner node l :
  linked head tail prev next h owner l → node ∉ l →
  ∃ h', append head tail prev next owner node h = Done h' ∧
        linked head tail prev next h' owner (l ++ [node]).
Proof using names.
  intros [Hnd Hh Ht Hn Hp] Hfresh.
  destruct l as [|t l0 _] using rev_ind.
  - (* the list was empty *)
    eexists. split; [by apply append_empty|].
    split; simpl.
    + apply NoDup_singleton.
    + reads; done.
    + reads; done.
    + intros [|i] n Hi; simplify_eq/=. reads; done.
    + intros [|i] n Hi; simplify_eq/=. reads; done.
  - (* the list ended in [t] *)
    rewrite last_snoc in Ht. simpl in Ht.
    assert (Hlen : length (l0 ++ [t]) = S (length l0))
      by (rewrite length_app; simpl; lia).
    assert (Hlast : (l0 ++ [t]) !! length l0 = Some t)
      by (rewrite lookup_app_r by lia; by rewrite Nat.sub_diag).
    assert (Hin : ∀ i n, (l0 ++ [t]) !! i = Some n → n ≠ node).
    { intros i n Hi ->. apply Hfresh. apply list_elem_of_lookup. eauto. }
    eexists. split; [by apply append_nonempty|].
    split.
    + apply NoDup_app. split; [done|]. split; [|apply NoDup_singleton].
      intros x Hx ->%list_elem_of_singleton. by apply Hfresh.
    + reads. rewrite Hh. f_equal.
      rewrite (lookup_app_l (l0 ++ [t])); [done|lia].
    + reads. by rewrite last_snoc.
    + intros i n Hi.
      destruct (decide (i < length (l0 ++ [t]))) as [Hlt|Hge].
      * rewrite lookup_app_l in Hi by done.
        pose proof (Hin _ _ Hi) as Hne.
        reads.
        -- (* n is the old tail *)
           subst n. pose proof (NoDup_lookup _ _ _ _ Hnd Hi Hlast) as ->.
           rewrite (lookup_app_r (l0 ++ [t])) by lia.
           by replace (S (length l0) - length (l0 ++ [t])) with 0 by lia.
        -- rewrite (Hn _ _ Hi). f_equal.
           destruct (decide (i = length l0)) as [->|Hi'].
           ++ exfalso. rewrite Hlast in Hi. simplify_eq.
              match goal with Hd : ¬ (?x = ?x ∧ ?p = ?p) |- _ => by apply Hd end.
           ++ rewrite (lookup_app_l (l0 ++ [t])); [done|lia].
      * rewrite lookup_app_r in Hi by lia.
        destruct (i - length (l0 ++ [t])) as [|k] eqn:Hk; simplify_eq/=.
        reads.
        -- exfalso. by eapply (Hin _ _ Hlast).
        -- rewrite lookup_ge_None_2; [done|rewrite length_app; simpl; lia].
    + intros i n Hi.
      destruct (decide (i < length (l0 ++ [t]))) as [Hlt|Hge].
      * rewrite lookup_app_l in Hi by done.
        pose proof (Hin _ _ Hi) as Hne.
        reads.
        rewrite (Hp _ _ Hi). f_equal.
        destruct i as [|j]; [done|].
        rewrite (lookup_app_l (l0 ++ [t])); [done|lia].
      * rewrite lookup_app_r in Hi by lia.
        destruct (i - length (l0 ++ [t])) as [|k] eqn:Hk; simplify_eq/=.
        assert (i = S (length l0)) as -> by lia.
        reads.
        rewrite (lookup_app_l (l0 ++ [t])) by lia. by rewrite Hlast.
Qed.

(** A well-formed list is walked from the head in its order. *)
Lemma traverse_from h owner l k fuel :
  linked head tail prev next h owner l →
  length l - k ≤ fuel →
  traverse fuel next h (link (l !! k)) = Some (drop k l).
Proof.
  intros Hl. revert k.
  induction fuel as [|fuel IH]; intros k Hk.
  - rewrite lookup_ge_None_2 by lia. rewrite drop_ge by lia. done.
  - destruct (l !! k) as [n|] eqn:Hn.
    + simpl. rewrite (linked_next _ _ _ _ _ _ _ Hl _ _ Hn).
      rewrite IH by lia. simpl.
      by rewrite (drop_S _ _ _ Hn).
    + apply lookup_ge_None_1 in Hn. rewrite drop_ge by lia. done.
Qed.

Lemma traverse_linked h owner l fuel :
  linked head tail prev next h owner l →
  length l ≤ fuel →
  traverse fuel next h (get_prop h owner head) = Some l.
Proof.
  intros Hl Hfuel. rewrite (linked_head _ _ _ _ _ _ _ Hl).
  rewrite (traverse_from h owner l 0 fuel Hl) by lia. by rewrite drop_0.
Qed.

Lemma append_frame h owner node o p :
  (o, p) ∉ footprint head tail prev next h owner node →
  get_prop (store_of (append head tail prev next owner node h)) o p = get_prop h o p.
Proof using names.
  unfold footprint. intros Hout.
  assert (Hnp : (node, prev) ≠ (o, p)) by (intros [= <- <-]; set_solver).
  assert (Hnn : (node, next) ≠ (o, p)) by (intros [= <- <-]; set_solver).
  assert (Hoh : (owner, head) ≠ (o, p)) by (intros [= <- <-]; set_solver).
  assert (Hot : (owner, tail) ≠ (o, p)) by (intros [= <- <-]; set_solver).
  unfold append. rewrite !tail_kept.
  destruct (get_prop h owner tail) as [| | | | |t] eqn:Ht; simpl;
    try by rewrite !get_set_prop_ne.
  assert (Htn : (t, next) ≠ (o, p)) by (intros [= <- <-]; set_solver).
  by rewrite !get_set_prop_ne.
Qed.
End Append.

Lemma bind_names : NoDup ["$bindableHead"; "$bindableTail"; "$prevBind"; "$nextBind"].
Proof. by apply (bool_decide_unpack _). Qed.

Lemma attach_names :
  NoDup ["$attachableHead"; "$attachableTail"; "$prevAttach"; "$nextAttach"].
Proof. by apply (bool_decide_unpack _). Qed.

(** C8.  On a renderable whose bindable head and tail are null, adding
    three distinct bindables A, B and C in this order returns, and then
    the walk from $bindableHead along $nextBind visits exactly A, B, C;
    $bindableTail is C; $prevBind of A is null, of B is A, of C is B; and
    $nextBind of C is null. *)
Theorem addBindable_keeps_registration_order h X A B C :
  get_prop h X "$bindableHead" = VNull →
  get_prop h X "$bindableTail" = VNull →
  A ≠ B → A ≠ C → B ≠ C →
  ∃ h',
    and_then (and_then (addBindable X A h) (addBindable X B)) (addBindable X C) = Done h' ∧
    (∀ fuel, 3 ≤ fuel →
       traverse fuel "$nextBind" h' (get_prop h' X "$bindableHead") = Some [A; B; C]) ∧
    get_prop h' X "$bindableTail" = VRef C ∧
    get_prop h' A "$prevBind" = VNull ∧
    get_prop h' B "$prevBind" = VRef A ∧
    get_prop h' C "$prevBind" = VRef B ∧
    get_prop h' C "$nextBind" = VNull.
Proof.
  intros Hhead Htail HAB HAC HBC.
  pose proof (linked_nil "$bindableHead" "$bindableTail" "$prevBind" "$nextBind"
                h X Hhead Htail) as L0.
  destruct (append_linked _ _ _ _ bind_names h X A [] L0) as (h1 & E1 & L1).
  { apply not_elem_of_nil. }
  destruct (append_linked _ _ _ _ bind_names h1 X B _ L1) as (h2 & E2 & L2).
  { simpl. by intros ?%list_elem_of_singleton. }
  destruct (append_linked _ _ _ _ bind_names h2 X C _ L2) as (h3 & E3 & L3).
  { simpl. intros [?|?%list_elem_of_singleton]%elem_of_cons; congruence. }
  simpl in L3.
  exists h3. rewrite !addBindable_append, E1. simpl.
  rewrite addBindable_append, E2. simpl.
  rewrite addBindable_append, E3.
  split; [done|]. split.
  { intros fuel Hfuel.
    by apply (traverse_linked "$bindableHead" "$bindableTail" "$prevBind" "$nextBind"
                h3 X [A; B; C]). }
  split; [exact (linked_tail _ _ _ _ _ _ _ L3)|].
  split; [exact (linked_prev _ _ _ _ _ _ _ L3 0 A eq_refl)|].
  split; [exact (linked_prev _ _ _ _ _ _ _ L3 1 B eq_refl)|].
  split; [exact (linked_prev _ _ _ _ _ _ _ L3 2 C eq_refl)|].
  exact (linked_next _ _ _ _ _ _ _ L3 2 C eq_refl).
Qed.

(** C10.  addBindable (and addAttachable, on the attach properties)
    writes nothing but its footprint: $prevBind and $nextBind of the
    bindable, $bindableHead and $bindableTail of the renderable and
    $nextBind of the previous tail.  Every other property of every object,
    the four attach properties among them, reads as before. *)
Theorem add_writes_only_its_list k h renderable node o p :
  (o, p) ∉ writes k h renderable node →
  get_prop (store_of (add k renderable node h)) o p = get_prop h o p.
Proof.
  destruct k; simpl; intros Hout.
  - rewrite addBindable_append. by apply append_frame; [apply bind_names|].
  - rewrite addAttachable_append. by apply append_frame; [apply attach_names|].
Qed.

(** ** The scoped instance providers *)

(** C1.  What InstanceProvider.resolve does around prepare and dispose:
    a provider that was never prepared, or was disposed, resolves to null
    and does not throw; after prepare(x) it returns x for every x that is
    an object or null; only prepare(undefined) makes resolve throw error
    50. *)
Theorem InstanceProvider_resolve_unprepared_returns_null (T : Type)
  (handler requestor : ctxref) :
  InstanceProvider_resolve handler requestor (@InstanceProvider_new T) = Normal JsNull ∧
  (∀ this : InstanceProvider T,
     InstanceProvider_resolve handler requestor (InstanceProvider_dispose this)
     = Normal JsNull) ∧
  (∀ (this : InstanceProvider T) (x : T),
     InstanceProvider_resolve handler requestor (InstanceProvider_prepare (JsValue x) this)
     = Normal (JsValue x)) ∧
  (∀ this : InstanceProvider T,
     InstanceProvider_resolve handler requestor (InstanceProvider_prepare JsNull this)
     = Normal JsNull) ∧
  (∀ this : InstanceProvider T,
     InstanceProvider_resolve handler requestor (InstanceProvider_prepare JsUndefined this)
     = Thrown (ReporterError 50 [])).
Proof. repeat split. Qed.

(** C7.  A context after beginComponentOperation and dispose, against the
    context as createRenderContext made it: the renderable, element,
    instruction and render-location providers are back at their initial
    state, but the view-factory provider holds null where the fresh one
    holds undefined.  Resolving the view factory on the fresh context
    throws error 50, on the disposed one a TypeError; a second
    beginComponentOperation gives the same context as on a fresh one when
    it passes a factory, and a different one when it does not. *)
Theorem dispose_leaves_view_factory_provider_null
  (parentContext : ctxref) (deps : option (list nat))
  (renderable target instruction : nullable ref)
  (f : nullable facref) (p : nullable parts) (location : nullable ref) :
  let fresh := RenderContext_new parentContext deps in
  let disposed :=
    RenderContext_dispose
      (beginComponentOperation renderable target instruction f p location fresh) in
  renderableProvider disposed = renderableProvider fresh ∧
  elementProvider disposed = elementProvider fresh ∧
  instructionProvider disposed = instructionProvider fresh ∧
  renderLocationProvider disposed = renderLocationProvider fresh ∧
  parent disposed = parent fresh ∧
  registered disposed = registered fresh ∧
  factoryProvider fresh = {| factory := JsUndefined; replacements := JsUndefined |} ∧
  factoryProvider disposed = {| factory := JsNull; replacements := JsNull |} ∧
  disposed ≠ fresh ∧
  (∀ defOf build inherited handler requestor w,
     ViewFactoryProvider_resolve defOf build inherited handler requestor
       (factoryProvider fresh) w
     = Throw (ReporterError 50 []) w ∧
     ViewFactoryProvider_resolve defOf build inherited handler requestor
       (factoryProvider disposed) w
     = Throw (TypeError "name") w) ∧
  (∀ r' t' i' (f' : facref) p' l',
     beginComponentOperation r' t' i' (JsValue f') p' l' disposed =
     beginComponentOperation r' t' i' (JsValue f') p' l' fresh) ∧
  (∀ r' t' i' p' l',
     beginComponentOperation r' t' i' JsUndefined p' l' disposed ≠
     beginComponentOperation r' t' i' JsUndefined p' l' fresh).
Proof.
  repeat split; done.
Qed.

(** ** Definitions without a view *)

(** C5.  For a definition whose template is absent or empty, whatever
    its other fields: templateFromSource returns noViewTemplate and
    changes nothing; getElementTemplate, in every world a run on a new
    engine can reach, returns noViewTemplate; its renderContext is null;
    and its render returns having set $nodes of the renderable to
    NodeSequence.empty and $context to null. *)
Theorem no_view_definition_gets_noViewTemplate
  (templateCompilers : list ITemplateCompiler) (cs : list call)
  (defOf : defref → TemplateDefinition)
  (buildTemplateDefinition : TemplateDefinition → TemplateDefinition)
  (inherited : string → option defref)
  (D : defref) (componentType : nullable nat) :
  let w :=
    run defOf buildTemplateDefinition inherited cs (RenderingEngine_new templateCompilers) in
  truthy_template (template (defOf D)) = false →
  (∀ parentContext w0,
     templateFromSource defOf buildTemplateDefinition (Supplied D) parentContext w0 = Return noViewTemplate w0) ∧
  (∃ w1,
     getElementTemplate defOf buildTemplateDefinition (JsValue D) componentType w
     = Return (JsValue noViewTemplate) w1 ∧
     renderContext_of w1 noViewTemplate = JsNull) ∧
  (∀ Renderer_render findTargets renderable host p w0,
     ∃ w2,
       ITemplate_render Renderer_render findTargets noViewTemplate renderable host p w0
       = Return tt w2 ∧
       get_prop (objects w2) renderable "$nodes" = VRef NodeSequence_empty ∧
       get_prop (objects w2) renderable "$context" = VNull).
Proof.
  intros w Hfalsy. split; [|split].
  - intros parentContext w0. by apply templateFromSource_no_view.
  - destruct (templateLookup w !! D) as [t|] eqn:Hd.
    + exists w. split; [|done].
      rewrite (getElementTemplate_hit _ _ _ _ _ _ Hd).
      destruct (run_invariants defOf buildTemplateDefinition inherited cs templateCompilers)
        as [Hsound _].
      by rewrite (Hsound D t Hd Hfalsy).
    + eexists. split; [|done].
      rewrite (getElementTemplate_miss _ _ _ _ _ Hd).
      by rewrite templateFromSource_no_view.
  - intros Renderer_render findTargets renderable host p w0.
    eexists. split; [reflexivity|]. simpl. split.
    + rewrite get_set_prop_ne by (intros [= _ ?]; done).
      apply get_set_prop_eq.
    + apply get_set_prop_eq.
Qed.

(** ** The theorems at concrete inputs *)

(** A renderable with empty lists, then three bindables. *)
Lemma addBindable_keeps_registration_order_witness :
  let h := set_prop (set_prop ∅ (Obj 0) "$bindableHead" VNull) (Obj 0) "$bindableTail" VNull in
  get_prop h (Obj 0) "$bindableHead" = VNull ∧
  get_prop h (Obj 0) "$bindableTail" = VNull ∧
  Obj 1 ≠ Obj 2 ∧ Obj 1 ≠ Obj 3 ∧ Obj 2 ≠ Obj 3 ∧
  ∃ h',
    and_then (and_then (addBindable (Obj 0) (Obj 1) h) (addBindable (Obj 0) (Obj 2)))
      (addBindable (Obj 0) (Obj 3)) = Done h' ∧
    (∀ fuel, 3 ≤ fuel →
       traverse fuel "$nextBind" h' (get_prop h' (Obj 0) "$bindableHead")
       = Some [Obj 1; Obj 2; Obj 3]) ∧
    get_prop h' (Obj 0) "$bindableTail" = VRef (Obj 3) ∧
    get_prop h' (Obj 1) "$prevBind" = VNull ∧
    get_prop h' (Obj 2) "$prevBind" = VRef (Obj 1) ∧
    get_prop h' (Obj 3) "$prevBind" = VRef (Obj 2) ∧
    get_prop h' (Obj 3) "$nextBind" = VNull.
Proof.
  intros h.
  assert (H1 : get_prop h (Obj 0) "$bindableHead" = VNull) by reflexivity.
  assert (H2 : get_prop h (Obj 0) "$bindableTail" = VNull) by reflexivity.
  assert (H3 : Obj 1 ≠ Obj 2) by discriminate.
  assert (H4 : Obj 1 ≠ Obj 3) by discriminate.
  assert (H5 : Obj 2 ≠ Obj 3) by discriminate.
  repeat (split; [assumption|]).
  exact (addBindable_keeps_registration_order h (Obj 0) (Obj 1) (Obj 2) (Obj 3)
           H1 H2 H3 H4 H5).
Defined.

(** An attach property of the renderable is outside the writes of
    addBindable. *)
Lemma add_writes_only_its_list_witness :
  let h := set_prop ∅ (Obj 0) "$attachableTail" (VRef (Obj 5)) in
  ((Obj 0, "$attachableTail") ∉ writes Bindables h (Obj 0) (Obj 1)) ∧
  get_prop (store_of (add Bindables (Obj 0) (Obj 1) h)) (Obj 0) "$attachableTail"
  = get_prop h (Obj 0) "$attachableTail".
Proof.
  intros h.
  assert (H : (Obj 0, "$attachableTail") ∉ writes Bindables h (Obj 0) (Obj 1)).
  { apply (bool_decide_unpack _). vm_compute. exact I. }
  split; [exact H|].
  exact (add_writes_only_its_list Bindables h (Obj 0) (Obj 1) (Obj 0) "$attachableTail" H).
Defined.

(** Null and undefined on a new engine. *)
Lemma falsy_definition_returns_null_witness :
  let defOf := λ _ : nat,
    {| name := None; template := NoTemplate; cache := CacheNumber 0;
       build := {| required := false; compiler := None |}; dependencies := None |} in
  let w := RenderingEngine_new [] in
  truthy (@JsNull nat) = false ∧
  getElementTemplate defOf id JsNull JsUndefined w = Return JsNull w ∧
  getViewFactory defOf id JsNull JsUndefined w = Return JsNull w.
Proof.
  intros defOf w. split; [reflexivity|].
  exact (falsy_definition_returns_null defOf id JsNull JsUndefined JsUndefined w eq_refl).
Defined.

(** A definition that names a compiler nobody registered. *)
Lemma templateFromSource_unknown_compiler_is_fatal_witness :
  let defOf := λ _ : nat,
    {| name := Some "app"; template := Markup "<div></div>"; cache := CacheNumber 0;
       build := {| required := true; compiler := Some "aot" |}; dependencies := None |} in
  let jit := {| compiler_name := "default"; compile := λ d _ _, d |} in
  let w := RenderingEngine_new [jit] in
  truthy_template (template (body defOf id (Supplied 0))) = true ∧
  required (build (body defOf id (Supplied 0))) = true ∧
  compiler (build (body defOf id (Supplied 0))) = Some "aot" ∧
  Forall (λ c, compiler_name c ≠ "aot") [jit] ∧
  templateFromSource defOf id (Supplied 0) JsUndefined w = Throw (ReporterError 20 ["aot"]) w.
Proof.
  intros defOf jit w.
  assert (H : Forall (λ c, compiler_name c ≠ "aot") [jit])
    by (repeat constructor; discriminate).
  split; [reflexivity|]. split; [reflexivity|]. split; [reflexivity|]. split; [exact H|].
  exact (proj2 (proj2 (proj2 (proj2
           (templateFromSource_unknown_compiler_is_fatal defOf id (λ _, None) [jit] []
              (Supplied 0) JsUndefined eq_refl eq_refl)))) H).
Defined.

(** A logic-only component on a new engine. *)
Lemma no_view_definition_gets_noViewTemplate_witness :
  let defOf := λ _ : nat,
    {| name := Some "logic"; template := Markup ""; cache := CacheAll;
       build := {| required := true; compiler := None |}; dependencies := Some [4] |} in
  truthy_template (template (defOf 0)) = false ∧
  ∃ w1,
    getElementTemplate defOf id (JsValue 0) (JsValue 9) (RenderingEngine_new [])
    = Return (JsValue noViewTemplate) w1 ∧
    renderContext_of w1 noViewTemplate = JsNull.
Proof.
  intros defOf. split; [reflexivity|].
  exact (proj1 (proj2 (no_view_definition_gets_noViewTemplate [] [] defOf id (λ _, None) 0
                         (JsValue 9)
                         eq_refl))).
Defined.

(** One factory request under context 0, then another under the container. *)
Lemma getViewFactory_ignores_parentContext_on_hit_witness :
  let defOf := λ _ : nat,
    {| name := Some "row"; template := Markup "<td></td>"; cache := CacheNumber 2;
       build := {| required := false; compiler := None |}; dependencies := None |} in
  let w := RenderingEngine_new [] in
  let w1 := world_of (getViewFactory defOf id (JsValue 0) (JsValue (Ctx 3)) w) in
  getViewFactory defOf id (JsValue 0) (JsValue (Ctx 3)) w = Return (JsValue 0) w1 ∧
  getViewFactory defOf id (JsValue 0) JsUndefined w1 = Return (JsValue 0) w1 ∧
  anchor w1 0 = Some (Ctx 3).
Proof.
  intros defOf w w1.
  assert (H : getViewFactory defOf id (JsValue 0) (JsValue (Ctx 3)) w = Return (JsValue 0) w1)
    by reflexivity.
  destruct (getViewFactory_ignores_parentContext_on_hit defOf id (λ _, None) w 0
              (JsValue (Ctx 3)) 0 w1 H) as [Hsame Hanchor].
  split; [exact H|]. split.
  - exact (Hsame [] JsUndefined).
  - exact (Hanchor eq_refl eq_refl []).
Defined.



(** ** The engine on small inputs *)

(** Two requests for one definition that needs a build: one template, one
    invocation of the compiler. *)
Example getElementTemplate_twice_compiles_once :
  let defOf := λ _ : nat,
    {| name := Some "app"; template := Markup "<div></div>"; cache := CacheNumber 0;
       build := {| required := true; compiler := None |}; dependencies := Some [1; 2] |} in
  let jit := {| compiler_name := "default"; compile := λ d _ _, d |} in
  let calls := [CallGetElementTemplate (JsValue 0) (JsValue 5);
                CallGetElementTemplate (JsValue 0) JsUndefined] in
  let w := run defOf id (λ _, None) calls (RenderingEngine_new [jit]) in
  getElementTemplate defOf id (JsValue 0) JsNull w = Return (JsValue (Compiled 0)) w ∧
  compiled_count 0 w = 1 ∧
  length (templates w) = 1 ∧
  registered <$> contexts w !! 0 = Some [Dependency 1; Dependency 2; ComponentType 5].
Proof. repeat split; reflexivity. Qed.

(** A never-prepared provider against a never-prepared view-factory
    provider. *)
Example resolve_before_prepare :
  InstanceProvider_resolve Container Container (@InstanceProvider_new ref) = Normal JsNull ∧
  ViewFactoryProvider_resolve (λ _, {| name := None; template := NoTemplate;
                                        cache := CacheAll;
                                        build := {| required := false; compiler := None |};
                                        dependencies := None |}) id (λ _, None)
    Container Container ViewFactoryProvider_new (RenderingEngine_new [])
  = Throw (ReporterError 50 []) (RenderingEngine_new []).
Proof. split; reflexivity. Qed.

(** The same bindable added twice closes the list into a cycle. *)
Example addBindable_same_node_twice :
  let h := set_prop (set_prop ∅ (Obj 0) "$bindableHead" VNull) (Obj 0) "$bindableTail" VNull in
  ∃ h', and_then (addBindable (Obj 0) (Obj 1) h) (addBindable (Obj 0) (Obj 1)) = Done h' ∧
        get_prop h' (Obj 1) "$nextBind" = VRef (Obj 1) ∧
        traverse 8 "$nextBind" h' (get_prop h' (Obj 0) "$bindableHead") = None.
Proof. eexists. repeat split; reflexivity. Qed.

(** A renderable whose tail was never initialised: the second write fails. *)
Example addBindable_undefined_tail :
  addBindable (Obj 0) (Obj 1) ∅ =
  Failed (TypeError "$nextBind")
    (set_prop (set_prop ∅ (Obj 1) "$prevBind" VUndefined) (Obj 1) "$nextBind" VNull).
Proof. reflexivity. Qed.

(** ** More about the lifecycle lists *)

Section AppendAll.
Variables head tail prev next : string.
Hypothesis names : NoDup [head; tail; prev; next].

(** Appending several nodes, none of them in the list yet. *)
Lemma append_all_linked nodes : ∀ h owner l,
  linked head tail prev next h owner l →
  NoDup (l ++ nodes) →
  ∃ h', foldl (λ r node, and_then r (append head tail prev next owner node))
          (Done h) nodes = Done h' ∧
        linked head tail prev next h' owner (l ++ nodes).
Proof using names.
  induction nodes as [|n nodes IH]; intros h owner l Hl Hnd.
  - exists h. by rewrite app_nil_r.
  - assert (Hfresh : n ∉ l).
    { apply NoDup_app in Hnd as (_ & Hdisj & _). intros Hn.
      apply (Hdisj n Hn). by left. }
    destruct (append_linked head tail prev next names h owner n l Hl Hfresh)
      as (h1 & E1 & L1).
    destruct (IH h1 owner (l ++ [n]) L1) as (h' & E' & L').
    { by rewrite <- app_assoc. }
    exists h'. simpl. rewrite E1. split; [exact E'|].
    by rewrite <- app_assoc in L'.
Qed.

(** A well-formed list is walked from the tail in reverse order. *)
Lemma traverse_back_from h owner l k fuel :
  linked head tail prev next h owner l →
  k ≤ length l → k ≤ fuel →
  traverse fuel prev h (link (match k with O => None | S j => l !! j end))
  = Some (reverse (take k l)).
Proof.
  intros Hl. revert fuel. induction k as [|j IH]; intros fuel Hk Hfuel.
  - by destruct fuel.
  - destruct (lookup_lt_is_Some_2 l j ltac:(lia)) as [n Hn].
    rewrite Hn. destruct fuel as [|fuel]; [lia|]. simpl.
    rewrite (linked_prev _ _ _ _ _ _ _ Hl _ _ Hn).
    rewrite IH by lia. simpl.
    rewrite (take_S_r _ _ _ Hn), reverse_app. done.
Qed.

Lemma traverse_back_linked h owner l fuel :
  linked head tail prev next h owner l →
  length l ≤ fuel →
  traverse fuel prev h (get_prop h owner tail) = Some (reverse l).
Proof.
  intros Hl Hfuel. rewrite (linked_tail _ _ _ _ _ _ _ Hl).
  pose proof (traverse_back_from h owner l (length l) fuel Hl) as H.
  rewrite firstn_all in H.
  destruct l as [|x l0]; [by destruct fuel|].
  rewrite last_lookup. by apply H.
Qed.

(** The names a footprint mentions. *)
Lemma footprint_names h owner node o p :
  (o, p) ∈ footprint head tail prev next h owner node → p ∈ [head; tail; prev; next].
Proof.
  clear names. unfold footprint. rewrite elem_of_app. intros [H|H].
  - repeat (apply elem_of_cons in H as [[= -> ->]|H]); [| | | |by apply elem_of_nil in H];
      set_solver.
  - destruct (get_prop h owner tail) as [| | | | |t]; try by apply elem_of_nil in H.
    apply list_elem_of_singleton in H as [= -> ->]. set_solver.
Qed.
End AppendAll.

Lemma list_names k : NoDup [head_of k; tail_of k; prev_of k; next_of k].
Proof. destruct k; [apply bind_names|apply attach_names]. Qed.

Lemma add_append k owner node h :
  add k owner node h = append (head_of k) (tail_of k) (prev_of k) (next_of k) owner node h.
Proof. by destruct k. Qed.

Lemma other_list_names k k' p :
  k ≠ k' →
  p ∈ [head_of k; tail_of k; prev_of k; next_of k] →
  p ∉ [head_of k'; tail_of k'; prev_of k'; next_of k'].
Proof.
  intros Hk Hp Hp'.
  destruct k, k'; try done; simpl in *;
    repeat (apply elem_of_cons in Hp as [->|Hp]);
    try (by apply elem_of_nil in Hp);
    repeat (apply elem_of_cons in Hp' as [Hp'|Hp']; [discriminate Hp'|]);
    by apply elem_of_nil in Hp'.
Qed.

(** X14.  On a renderable whose list is empty, adding any number of
    distinct nodes, to the bindables or to the attachables, returns and
    leaves a well-formed doubly linked list: the walk from the head along
    the forward links visits exactly the nodes in the order they were
    added, and the walk from the tail along the backward links visits
    them in the reverse order. *)
Theorem add_all_keeps_registration_order
  (k : lifecycle_list) (h : gmap ref (gmap string value)) (owner : ref)
  (nodes : list ref) :
  get_prop h owner (head_of k) = VNull →
  get_prop h owner (tail_of k) = VNull →
  NoDup nodes →
  ∃ h',
    add_all k owner nodes h = Done h' ∧
    get_prop h' owner (head_of k) = link (nodes !! 0) ∧
    get_prop h' owner (tail_of k) = link (last nodes) ∧
    (∀ fuel, length nodes ≤ fuel →
       traverse fuel (next_of k) h' (get_prop h' owner (head_of k)) = Some nodes) ∧
    (∀ fuel, length nodes ≤ fuel →
       traverse fuel (prev_of k) h' (get_prop h' owner (tail_of k))
       = Some (reverse nodes)).
Proof.
  intros Hhead Htail Hnd.
  pose proof (linked_nil (head_of k) (tail_of k) (prev_of k) (next_of k)
                h owner Hhead Htail) as L0.
  destruct (append_all_linked _ _ _ _ (list_names k) nodes h owner [] L0 Hnd)
    as (h' & E & L).
  simpl in L. exists h'. split.
  - unfold add_all. rewrite <- E. by destruct k.
  - split; [exact (linked_head _ _ _ _ _ _ _ L)|].
    split; [exact (linked_tail _ _ _ _ _ _ _ L)|].
    split; intros fuel Hfuel.
    + by apply (traverse_linked (head_of k) (tail_of k) (prev_of k) (next_of k) h' owner).
    + by apply (traverse_back_linked (head_of k) (tail_of k) (prev_of k) (next_of k)
                  h' owner).
Qed.

(** X15.  The two lists do not interfere: adding to the attachables of
    any object, whether it returns or throws, leaves every bindable list
    as it was, and the other way round, also when the same objects are in
    both lists. *)
Theorem lists_do_not_interfere
  (k k' : lifecycle_list) (h : gmap ref (gmap string value))
  (owner : ref) (l : list ref) (owner' node : ref) :
  k ≠ k' →
  listed k h owner l →
  listed k (store_of (add k' owner' node h)) owner l.
Proof.
  intros Hk [Hnd Hh Ht Hn Hp].
  assert (Hframe : ∀ o p,
    p ∈ [head_of k; tail_of k; prev_of k; next_of k] →
    get_prop (store_of (add k' owner' node h)) o p = get_prop h o p).
  { intros o p Hin. rewrite add_append.
    apply append_frame; [apply list_names|].
    intros Hfp%footprint_names. by apply (other_list_names k k' p). }
  split; [done| | | |].
  - rewrite Hframe; [done|set_solver].
  - rewrite Hframe; [done|set_solver].
  - intros i n Hi. rewrite Hframe; [by apply Hn|set_solver].
  - intros i n Hi. rewrite Hframe; [by apply Hp|set_solver].
Qed.

(** X16.  The tail is compared with null by identity: on an object whose
    tail is neither null nor an object, such as one whose list properties
    were never initialised, add throws a TypeError on the forward link,
    after it has already overwritten both links of the node, and writes
    nothing else. *)
Theorem add_throws_when_tail_is_not_initialised
  (k : lifecycle_list) (h : gmap ref (gmap string value)) (owner node : ref) :
  get_prop h owner (tail_of k) ≠ VNull →
  (∀ t, get_prop h owner (tail_of k) ≠ VRef t) →
  ∃ h',
    add k owner node h = Failed (TypeError (next_of k)) h' ∧
    get_prop h' node (prev_of k) = get_prop h owner (tail_of k) ∧
    get_prop h' node (next_of k) = VNull ∧
    ∀ o p, (o, p) ≠ (node, prev_of k) → (o, p) ≠ (node, next_of k) →
           get_prop h' o p = get_prop h o p.
Proof.
  intros Hnull Hobj. rewrite add_append. unfold append.
  rewrite !(tail_kept _ _ _ _ (list_names k)).
  rewrite decide_False by done.
  assert (Hassign : ∀ h2,
    assign h2 (get_prop h owner (tail_of k)) (next_of k) (VRef node)
    = Failed (TypeError (next_of k)) h2).
  { intros h2. destruct (get_prop h owner (tail_of k)) as [| | | | |t]; try done.
    by destruct (Hobj t). }
  rewrite Hassign. eexists. split; [reflexivity|]. split; [|split].
  - rewrite get_set_prop_ne by (intros E; apply (f_equal snd) in E; by destruct k).
    apply get_set_prop_eq.
  - apply get_set_prop_eq.
  - intros o p H1 H2. by rewrite !get_set_prop_ne.
Qed.

(** X17.  add does not check whether the node is already in the list:
    adding the node that is the tail links it to itself in both
    directions, and from then on the forward walk from that node never
    ends. *)
Theorem adding_the_tail_again_closes_a_cycle
  (k : lifecycle_list) (h : gmap ref (gmap string value)) (owner node : ref) :
  get_prop h owner (tail_of k) = VRef node →
  ∃ h',
    add k owner node h = Done h' ∧
    get_prop h' node (next_of k) = VRef node ∧
    get_prop h' node (prev_of k) = VRef node ∧
    get_prop h' owner (tail_of k) = VRef node ∧
    ∀ fuel, traverse fuel (next_of k) h' (VRef node) = None.
Proof.
  intros Htail. rewrite add_append.
  rewrite (append_nonempty _ _ _ _ (list_names k) h owner node node Htail).
  eexists. split; [reflexivity|].
  assert (Hnext : get_prop
    (set_prop (set_prop (set_prop (set_prop h node (prev_of k) (VRef node))
       node (next_of k) VNull) node (next_of k) (VRef node))
       owner (tail_of k) (VRef node)) node (next_of k) = VRef node).
  { rewrite get_set_prop_ne by (intros E; apply (f_equal snd) in E; by destruct k).
    apply get_set_prop_eq. }
  split; [exact Hnext|]. split; [|split].
  - rewrite !get_set_prop_ne by (intros E; apply (f_equal snd) in E; by destruct k).
    apply get_set_prop_eq.
  - apply get_set_prop_eq.
  - intros fuel. induction fuel as [|fuel IH]; [done|].
    simpl. rewrite Hnext. simpl in IH. by rewrite IH.
Qed.

(** ** More about the render context *)

(** X18.  A beginComponentOperation that passes no factory and no
    location does not clear them: when it follows another operation on
    the same context without a dispose between, the renderable, element
    and instruction are the new ones, yet the view-factory provider still
    holds the factory and parts of the earlier operation and the render
    location still resolves to the earlier location.  With a dispose
    between them the location resolves to null and the factory is null. *)
Theorem beginComponentOperation_keeps_factory_and_location_it_is_not_given
  (handler requestor : ctxref) (context : RenderContext)
  (r1 t1 i1 : nullable ref) (F1 : facref) (P1 : nullable parts) (L1 : ref)
  (r2 t2 i2 : nullable ref) (f2 : nullable facref) (p2 : nullable parts)
  (l2 : nullable ref) :
  truthy f2 = false →
  truthy l2 = false →
  let first := beginComponentOperation r1 t1 i1 (JsValue F1) P1 (JsValue L1) context in
  let second := beginComponentOperation r2 t2 i2 f2 p2 l2 first in
  let disposed := beginComponentOperation r2 t2 i2 f2 p2 l2 (RenderContext_dispose first) in
  instance (renderableProvider second) = r2 ∧
  instance (elementProvider second) = t2 ∧
  instance (instructionProvider second) = i2 ∧
  factoryProvider second =
    {| factory := JsValue F1; replacements := JsValue (or_else P1 emptyObject) |} ∧
  InstanceProvider_resolve handler requestor (renderLocationProvider second)
    = Normal (JsValue L1) ∧
  factory (factoryProvider disposed) = JsNull ∧
  InstanceProvider_resolve handler requestor (renderLocationProvider disposed)
    = Normal JsNull.
Proof.
  intros Hf Hl. simpl. rewrite Hf, Hl. by repeat split.
Qed.

(** X19.  dispose forgets every operation: the context after dispose is
    the same whatever beginComponentOperation calls came before it, a
    second dispose changes nothing, and neither call touches the parent
    of the context or what is registered in it. *)
Theorem dispose_forgets_every_operation
  (context : RenderContext)
  (r t i : nullable ref) (f : nullable facref) (p : nullable parts) (l : nullable ref) :
  RenderContext_dispose (beginComponentOperation r t i f p l context)
    = RenderContext_dispose context ∧
  RenderContext_dispose (RenderContext_dispose context) = RenderContext_dispose context ∧
  parent (beginComponentOperation r t i f p l context) = parent context ∧
  registered (beginComponentOperation r t i f p l context) = registered context ∧
  parent (RenderContext_dispose context) = parent context ∧
  registered (RenderContext_dispose context) = registered context.
Proof. by repeat split. Qed.

(** ** applyRuntimeBehavior *)

Section RuntimeBehaviorProperties.
Variable RuntimeBehavior : Type.
Variable RuntimeBehavior_create : nat → ref → RuntimeBehavior.

Lemma first_instance_app type calls c :
  first_instance type (calls ++ [c]) =
  match first_instance type calls with
  | Some i => Some i
  | None => if decide (c.1 = type) then Some c.2 else None
  end.
Proof.
  induction calls as [|c0 calls IH]; simpl; [done|].
  by destruct (decide (c0.1 = type)).
Qed.

Lemma first_instance_of_member calls c :
  c ∈ calls → is_Some (first_instance c.1 calls).
Proof.
  induction calls as [|c0 calls IH]; [by intros ?%elem_of_nil|].
  intros [->|Hin]%elem_of_cons; simpl.
  - by rewrite decide_True.
  - destruct (decide (c0.1 = c.1)); [done|by apply IH].
Qed.

(** X20.  applyRuntimeBehavior creates the behaviour of a type once, from
    the first instance it is called with for that type, and applies that
    same behaviour to every instance of the type it is called with after,
    in the order of the calls; create is never called twice for a type. *)
Theorem applyRuntimeBehavior_creates_once_per_type (calls : list (nat * ref)) :
  let s := applyRuntimeBehaviors RuntimeBehavior RuntimeBehavior_create calls behaviors_new in
  (∀ type, behaviorLookup s !! type
           = RuntimeBehavior_create type <$> first_instance type calls) ∧
  applied s =
    (λ c, (RuntimeBehavior_create c.1 (default c.2 (first_instance c.1 calls)), c.2))
      <$> calls ∧
  NoDup (created s).*1 ∧
  (∀ type instance,
     (type, instance) ∈ created s ↔ first_instance type calls = Some instance).
Proof.
  induction calls as [|c calls IH] using rev_ind.
  - simpl. split; [|split; [done|split]].
    + intros type. by rewrite lookup_empty.
    + constructor.
    + intros type instance. split; [by intros ?%elem_of_nil|done].
  - unfold applyRuntimeBehaviors in *. rewrite foldl_app. simpl.
    set (s := foldl _ _ calls) in *. simpl in IH.
    destruct IH as (Hlookup & Happlied & Hnd & Hcreated).
    assert (Hold : ∀ c', c' ∈ calls →
      first_instance c'.1 (calls ++ [c]) = first_instance c'.1 calls).
    { intros c' Hin. rewrite first_instance_app.
      by destruct (first_instance_of_member calls c' Hin) as [i ->]. }
    assert (Hmap :
      (λ c0, (RuntimeBehavior_create c0.1
                (default c0.2 (first_instance c0.1 (calls ++ [c]))), c0.2)) <$> calls
      = (λ c0, (RuntimeBehavior_create c0.1
                  (default c0.2 (first_instance c0.1 calls)), c0.2)) <$> calls).
    { apply list_fmap_ext. intros i c' Hc'.
      rewrite Hold; [done|]. apply list_elem_of_lookup. by exists i. }
    unfold applyRuntimeBehavior. rewrite Hlookup.
    destruct (first_instance c.1 calls) as [i0|] eqn:Hfirst; simpl.
    + split; [|split; [|split]].
      * intros type. rewrite Hlookup, first_instance_app.
        destruct (first_instance type calls) as [i|] eqn:Ht; [done|].
        rewrite decide_False; [done|]. intros <-. congruence.
      * rewrite Happlied, fmap_app, Hmap. simpl.
        by rewrite first_instance_app, Hfirst.
      * done.
      * intros type instance. rewrite Hcreated, first_instance_app.
        destruct (first_instance type calls) as [i|] eqn:Ht; [done|].
        rewrite decide_False; [done|]. intros <-. congruence.
    + split; [|split; [|split]].
      * intros type. rewrite first_instance_app.
        destruct (decide (c.1 = type)) as [<-|Hne].
        -- by rewrite lookup_insert_eq, Hfirst.
        -- rewrite lookup_insert_ne by done. rewrite Hlookup.
           by destruct (first_instance type calls).
      * rewrite Happlied, fmap_app, Hmap. simpl.
        rewrite first_instance_app, Hfirst. by rewrite decide_True.
      * rewrite fmap_app. simpl. apply NoDup_app. split; [done|].
        split; [|apply NoDup_singleton].
        intros type Hin ->%list_elem_of_singleton.
        apply list_elem_of_fmap in Hin as ([type' instance] & Heq & Hin).
        simpl in Heq. subst type'. apply Hcreated in Hin. congruence.
      * intros type instance. rewrite elem_of_app, Hcreated, first_instance_app.
        rewrite list_elem_of_singleton.
        destruct c as [type0 instance0]; simpl in *.
        destruct (first_instance type calls) as [i|] eqn:Ht.
        -- split; [intros [?|[= -> ->]]; [done|congruence]|by left].
        -- destruct (decide (type0 = type)) as [<-|Hne].
           ++ split; [intros [?|[= ->]]; done|intros [= <-]; by right].
           ++ split; [intros [?|[= -> ->]]; done|done].
Qed.
End RuntimeBehaviorProperties.

(** ** The further theorems at concrete inputs *)

(** The factory cached by one request on a new engine. *)
Lemma cached_factory_comes_from_normalised_definition_witness :
  let defOf := λ _ : nat,
    {| name := Some "row"; template := Markup "<td></td>"; cache := CacheNumber 2;
       build := {| required := false; compiler := None |}; dependencies := None |} in
  let normalise := λ d : TemplateDefinition,
    {| name := Some "view"; template := template d; cache := CacheAll;
       build := build d; dependencies := dependencies d |} in
  let w := run defOf normalise (λ _, None) [CallGetViewFactory (JsValue 0) JsUndefined]
             (RenderingEngine_new []) in
  factoryLookup w !! 0 = Some 0 ∧
  ∃ fobj, factories w !! 0 = Some fobj ∧
    vf_name fobj = Some "view" ∧
    vf_cacheSize fobj = CacheAll ∧
    (vf_template fobj = noViewTemplate ↔ truthy_template (Markup "<td></td>") = false).
Proof.
  intros defOf normalise w.
  assert (H : factoryLookup w !! 0 = Some 0) by reflexivity.
  split; [exact H|].
  exact (cached_factory_comes_from_normalised_definition defOf normalise (λ _, None) []
           [CallGetViewFactory (JsValue 0) JsUndefined] 0 0 H).
Defined.

(** The first template of a recursive component with two dependencies. *)
Lemma getElementTemplate_first_build_registers_component_type_witness :
  let defOf := λ _ : nat,
    {| name := Some "tree"; template := Markup "<tree></tree>"; cache := CacheNumber 0;
       build := {| required := false; compiler := None |}; dependencies := Some [1; 2] |} in
  let w := RenderingEngine_new [] in
  let w1 := world_of (getElementTemplate defOf id (JsValue 0) (JsValue 5) w) in
  templateLookup w !! 0 = None ∧
  truthy_template (template (defOf 0)) = true ∧
  getElementTemplate defOf id (JsValue 0) (JsValue 5) w = Return (JsValue (Compiled 0)) w1 ∧
  ∃ ct c,
    JsValue (Compiled 0) = JsValue (Compiled (length (templates w))) ∧
    templates w1 = templates w ++ [ct] ∧
    renderContext ct = Ctx (length (contexts w)) ∧
    nodeFactory ct = template (templateDefinition ct) ∧
    (required (build (defOf 0)) = false → templateDefinition ct = defOf 0) ∧
    (required (build (defOf 0)) = true →
     ∃ k, compilers w !! compilerName_of (defOf 0) = Some k ∧
          templateDefinition ct = compile k (defOf 0) Container surrogate) ∧
    contexts w1 = contexts w ++ [c] ∧
    parent c = Container ∧
    registered c =
      match dependencies (templateDefinition ct) with
      | Some ds => Dependency <$> ds
      | None => []
      end ++ [ComponentType 5] ∧
    instance (renderableProvider c) = JsNull ∧
    instance (elementProvider c) = JsNull ∧
    instance (instructionProvider c) = JsNull ∧
    instance (renderLocationProvider c) = JsNull ∧
    factory (factoryProvider c) = JsUndefined ∧
    replacements (factoryProvider c) = JsUndefined.
Proof.
  intros defOf w w1.
  assert (H1 : templateLookup w !! 0 = None) by reflexivity.
  assert (H2 : truthy_template (template (defOf 0)) = true) by reflexivity.
  assert (H3 : getElementTemplate defOf id (JsValue 0) (JsValue 5) w
               = Return (JsValue (Compiled 0)) w1) by reflexivity.
  split; [exact H1|]. split; [exact H2|]. split; [exact H3|].
  exact (getElementTemplate_first_build_registers_component_type defOf id w 0 (JsValue 5)
           (JsValue (Compiled 0)) w1 H1 H2 H3).
Defined.

(** The first request for a definition that the default compiler builds. *)
Lemma getElementTemplate_first_request_compiles_once_witness :
  let defOf := λ _ : nat,
    {| name := Some "app"; template := Markup "<div></div>"; cache := CacheNumber 0;
       build := {| required := true; compiler := None |}; dependencies := None |} in
  let jit := {| compiler_name := "default"; compile := λ d _ _, d |} in
  let w := run defOf id (λ _, None) [CallGetElementTemplate (JsValue 1) JsUndefined]
             (RenderingEngine_new [jit]) in
  templateLookup w !! 0 = None ∧
  truthy_template (template (defOf 0)) = true ∧
  required (build (defOf 0)) = true ∧
  compilers w !! compilerName_of (defOf 0) = Some jit ∧
  ∃ w1,
    getElementTemplate defOf id (JsValue 0) JsUndefined w
    = Return (JsValue (Compiled (length (templates w)))) w1 ∧
    compilations w1 = compilations w ++
      [{| call_compiler := "default"; call_definition := Supplied 0;
          call_resources := Container |}] ∧
    compiled_count 0 w = 0 ∧
    compiled_count 0 w1 = 1.
Proof.
  intros defOf jit w.
  assert (H1 : templateLookup w !! 0 = None) by reflexivity.
  assert (H4 : compilers w !! compilerName_of (defOf 0) = Some jit) by reflexivity.
  split; [exact H1|]. split; [reflexivity|]. split; [reflexivity|]. split; [exact H4|].
  exact (getElementTemplate_first_request_compiles_once defOf id (λ _, None) [jit]
           [CallGetElementTemplate (JsValue 1) JsUndefined] 0 JsUndefined jit
           H1 eq_refl eq_refl H4).
Defined.


(** A factory made from a definition without a name. *)
Lemma unnamed_factory_cannot_be_resolved_witness :
  let defOf := λ _ : nat,
    {| name := None; template := Markup "<td></td>"; cache := CacheNumber 0;
       build := {| required := false; compiler := None |}; dependencies := None |} in
  let w := world_of (getViewFactory defOf id (JsValue 0) JsUndefined (RenderingEngine_new [])) in
  let fobj := {| vf_name := None; vf_template := Compiled 0;
                 vf_cacheSize := CacheNumber 0 |} in
  let P : nullable parts := JsValue {[ "row" := 7 ]} in
  factories w !! 0 = Some fobj ∧
  truthy_string (vf_name fobj) = false ∧
  ViewFactoryProvider_resolve defOf id (λ _, None) Container (Ctx 0)
    (ViewFactoryProvider_prepare (JsValue 0) P ViewFactoryProvider_new) w
  = Throw (ReporterError 51 []) w.
Proof.
  intros defOf w fobj P.
  assert (H1 : factories w !! 0 = Some fobj) by reflexivity.
  split; [exact H1|]. split; [reflexivity|].
  exact (unnamed_factory_cannot_be_resolved defOf id (λ _, None) Container (Ctx 0)
           ViewFactoryProvider_new 0 P fobj w H1 eq_refl).
Defined.

(** A provider that was never prepared. *)
Lemma ViewFactoryProvider_resolve_failure_changes_nothing_witness :
  let defOf := λ _ : nat,
    {| name := None; template := NoTemplate; cache := CacheNumber 0;
       build := {| required := false; compiler := None |}; dependencies := None |} in
  let w := RenderingEngine_new [] in
  ViewFactoryProvider_resolve defOf id (λ _, None) Container Container ViewFactoryProvider_new w
  = Throw (ReporterError 50 []) w ∧
  w = w ∧
  (ReporterError 50 [] = ReporterError 50 [] ∨
   ReporterError 50 [] = ReporterError 51 [] ∨
   (∃ p, ReporterError 50 [] = TypeError p) ∨
   (∃ n, ReporterError 50 [] = ReporterError 20 [n] ∧ compilers w !! n = None)).
Proof.
  intros defOf w.
  assert (H : ViewFactoryProvider_resolve defOf id (λ _, None) Container Container
                ViewFactoryProvider_new w = Throw (ReporterError 50 []) w) by reflexivity.
  split; [exact H|].
  exact (ViewFactoryProvider_resolve_failure_changes_nothing defOf id (λ _, None) Container Container
           ViewFactoryProvider_new w (ReporterError 50 []) w H).
Defined.

(** Two attachables on a renderable with an empty list. *)
Lemma add_all_keeps_registration_order_witness :
  let h := set_prop (set_prop ∅ (Obj 0) "$attachableHead" VNull)
             (Obj 0) "$attachableTail" VNull in
  get_prop h (Obj 0) (head_of Attachables) = VNull ∧
  get_prop h (Obj 0) (tail_of Attachables) = VNull ∧
  NoDup [Obj 1; Obj 2] ∧
  ∃ h',
    add_all Attachables (Obj 0) [Obj 1; Obj 2] h = Done h' ∧
    get_prop h' (Obj 0) (head_of Attachables) = VRef (Obj 1) ∧
    get_prop h' (Obj 0) (tail_of Attachables) = VRef (Obj 2) ∧
    (∀ fuel, 2 ≤ fuel →
       traverse fuel (next_of Attachables) h' (get_prop h' (Obj 0) (head_of Attachables))
       = Some [Obj 1; Obj 2]) ∧
    (∀ fuel, 2 ≤ fuel →
       traverse fuel (prev_of Attachables) h' (get_prop h' (Obj 0) (tail_of Attachables))
       = Some [Obj 2; Obj 1]).
Proof.
  intros h.
  assert (H1 : get_prop h (Obj 0) (head_of Attachables) = VNull) by reflexivity.
  assert (H2 : get_prop h (Obj 0) (tail_of Attachables) = VNull) by reflexivity.
  assert (H3 : NoDup [Obj 1; Obj 2]).
  { apply (bool_decide_unpack _). vm_compute. exact I. }
  split; [exact H1|]. split; [exact H2|]. split; [exact H3|].
  exact (add_all_keeps_registration_order Attachables h (Obj 0) [Obj 1; Obj 2] H1 H2 H3).
Defined.

(** An empty bindable list while an attachable is added. *)
Lemma lists_do_not_interfere_witness :
  let h := set_prop (set_prop ∅ (Obj 0) "$bindableHead" VNull) (Obj 0) "$bindableTail" VNull in
  Bindables ≠ Attachables ∧
  listed Bindables h (Obj 0) [] ∧
  listed Bindables (store_of (add Attachables (Obj 0) (Obj 1) h)) (Obj 0) [].
Proof.
  intros h.
  assert (H1 : Bindables ≠ Attachables) by discriminate.
  assert (H2 : listed Bindables h (Obj 0) []).
  { apply linked_nil; reflexivity. }
  split; [exact H1|]. split; [exact H2|].
  exact (lists_do_not_interfere Bindables Attachables h (Obj 0) [] (Obj 0) (Obj 1) H1 H2).
Defined.

(** An object whose list properties were never written. *)
Lemma add_throws_when_tail_is_not_initialised_witness :
  let h : gmap ref (gmap string value) := ∅ in
  get_prop h (Obj 0) (tail_of Bindables) ≠ VNull ∧
  (∀ t, get_prop h (Obj 0) (tail_of Bindables) ≠ VRef t) ∧
  ∃ h',
    add Bindables (Obj 0) (Obj 1) h = Failed (TypeError (next_of Bindables)) h' ∧
    get_prop h' (Obj 1) (prev_of Bindables) = get_prop h (Obj 0) (tail_of Bindables) ∧
    get_prop h' (Obj 1) (next_of Bindables) = VNull ∧
    ∀ o p, (o, p) ≠ (Obj 1, prev_of Bindables) → (o, p) ≠ (Obj 1, next_of Bindables) →
           get_prop h' o p = get_prop h o p.
Proof.
  intros h.
  assert (H1 : get_prop h (Obj 0) (tail_of Bindables) ≠ VNull) by discriminate.
  assert (H2 : ∀ t, get_prop h (Obj 0) (tail_of Bindables) ≠ VRef t) by discriminate.
  split; [exact H1|]. split; [exact H2|].
  exact (add_throws_when_tail_is_not_initialised Bindables h (Obj 0) (Obj 1) H1 H2).
Defined.

(** A list of one node, and that node added again. *)
Lemma adding_the_tail_again_closes_a_cycle_witness :
  let h := set_prop ∅ (Obj 0) "$bindableTail" (VRef (Obj 1)) in
  get_prop h (Obj 0) (tail_of Bindables) = VRef (Obj 1) ∧
  ∃ h',
    add Bindables (Obj 0) (Obj 1) h = Done h' ∧
    get_prop h' (Obj 1) (next_of Bindables) = VRef (Obj 1) ∧
    get_prop h' (Obj 1) (prev_of Bindables) = VRef (Obj 1) ∧
    get_prop h' (Obj 0) (tail_of Bindables) = VRef (Obj 1) ∧
    ∀ fuel, traverse fuel (next_of Bindables) h' (VRef (Obj 1)) = None.
Proof.
  intros h.
  assert (H : get_prop h (Obj 0) (tail_of Bindables) = VRef (Obj 1)) by reflexivity.
  split; [exact H|].
  exact (adding_the_tail_again_closes_a_cycle Bindables h (Obj 0) (Obj 1) H).
Defined.

(** Two operations on a new context, the second without factory and
    location. *)
Lemma beginComponentOperation_keeps_factory_and_location_it_is_not_given_witness :
  let context := RenderContext_new Container None in
  let first :=
    beginComponentOperation (JsValue (Obj 1)) (JsValue (Obj 2)) (JsValue (Obj 3))
      (JsValue 0) JsUndefined (JsValue (Obj 4)) context in
  let second :=
    beginComponentOperation (JsValue (Obj 5)) (JsValue (Obj 6)) (JsValue (Obj 7))
      JsUndefined JsUndefined JsNull first in
  truthy (@JsUndefined nat) = false ∧
  truthy (@JsNull ref) = false ∧
  instance (renderableProvider second) = JsValue (Obj 5) ∧
  factoryProvider second = {| factory := JsValue 0; replacements := JsValue emptyObject |} ∧
  InstanceProvider_resolve Container Container (renderLocationProvider second)
    = Normal (JsValue (Obj 4)).
Proof.
  intros context first second.
  split; [reflexivity|]. split; [reflexivity|].
  destruct (beginComponentOperation_keeps_factory_and_location_it_is_not_given
              Container Container context
              (JsValue (Obj 1)) (JsValue (Obj 2)) (JsValue (Obj 3)) 0 JsUndefined (Obj 4)
              (JsValue (Obj 5)) (JsValue (Obj 6)) (JsValue (Obj 7))
              JsUndefined JsUndefined JsNull eq_refl eq_refl)
    as (A & _ & _ & B & C & _).
  split; [exact A|]. split; [exact B|exact C].
Defined.

(** A replacement resolved for the first time from context 0. *)
Lemma replacement_factory_is_anchored_at_first_requestor_witness :
  let defOf := λ _ : nat,
    {| name := Some "row"; template := Markup "<td></td>"; cache := CacheNumber 2;
       build := {| required := false; compiler := None |}; dependencies := None |} in
  let w := world_of (getViewFactory defOf id (JsValue 0) JsUndefined (RenderingEngine_new [])) in
  let fobj := {| vf_name := Some "row"; vf_template := Compiled 0;
                 vf_cacheSize := CacheNumber 2 |} in
  let P : nullable parts := JsValue {[ "row" := 7 ]} in
  let prepared := ViewFactoryProvider_prepare (JsValue 0) P ViewFactoryProvider_new in
  let w1 := world_of (ViewFactoryProvider_resolve defOf id (λ _, None) Container (Ctx 0) prepared w) in
  factories w !! 0 = Some fobj ∧
  vf_name fobj = Some "row" ∧
  "row" ≠ "" ∧
  or_else P emptyObject !! "row" = Some 7 ∧
  factoryLookup w !! 7 = None ∧
  truthy_template (template (id (defOf 7))) = true ∧
  ViewFactoryProvider_resolve defOf id (λ _, None) Container (Ctx 0) prepared w = Return (JsValue 1) w1 ∧
  JsValue 1 = JsValue (length (factories w)) ∧
  ∀ cs, anchor (run defOf id (λ _, None) cs w1) (length (factories w)) = Some (Ctx 0).
Proof.
  intros defOf w fobj P prepared w1.
  assert (H1 : factories w !! 0 = Some fobj) by reflexivity.
  assert (H3 : "row" ≠ "") by discriminate.
  assert (H4 : or_else P emptyObject !! "row" = Some 7) by reflexivity.
  assert (H5 : factoryLookup w !! 7 = None) by reflexivity.
  assert (H7 : ViewFactoryProvider_resolve defOf id (λ _, None) Container (Ctx 0) prepared w
               = Return (JsValue 1) w1) by reflexivity.
  split; [exact H1|]. split; [reflexivity|]. split; [exact H3|]. split; [exact H4|].
  split; [exact H5|]. split; [reflexivity|]. split; [exact H7|].
  exact (replacement_factory_is_anchored_at_first_requestor defOf id (λ _, None) Container (Ctx 0)
           ViewFactoryProvider_new 0 P fobj "row" 7 w (JsValue 1) w1
           H1 eq_refl H3 H4 H5 eq_refl H7).
Defined.

(** A factory named "toString" and no parts: the member every object
    inherits is taken for the replacement. *)
Lemma inherited_member_is_taken_for_a_replacement_witness :
  let defOf := λ _ : nat,
    {| name := Some "toString"; template := Markup "<td></td>"; cache := CacheNumber 2;
       build := {| required := false; compiler := None |}; dependencies := None |} in
  let prototype := λ n : string, if String.eqb n "toString" then Some 9 else None in
  let w := world_of (getViewFactory defOf id (JsValue 0) JsUndefined (RenderingEngine_new [])) in
  let fobj := {| vf_name := Some "toString"; vf_template := Compiled 0;
                 vf_cacheSize := CacheNumber 2 |} in
  factories w !! 0 = Some fobj ∧
  vf_name fobj = Some "toString" ∧
  "toString" ≠ "" ∧
  or_else (@JsUndefined parts) emptyObject !! "toString" = None ∧
  prototype "toString" = Some 9 ∧
  ViewFactoryProvider_resolve defOf id prototype Container (Ctx 0)
    (ViewFactoryProvider_prepare (JsValue 0) JsUndefined ViewFactoryProvider_new) w
  = getViewFactory defOf id (JsValue 9) (JsValue (Ctx 0)) w.
Proof.
  intros defOf prototype w fobj.
  assert (H1 : factories w !! 0 = Some fobj) by reflexivity.
  assert (H3 : "toString" ≠ "") by discriminate.
  assert (H4 : or_else (@JsUndefined parts) emptyObject !! "toString" = None) by reflexivity.
  split; [exact H1|]. split; [reflexivity|]. split; [exact H3|]. split; [exact H4|].
  split; [reflexivity|].
  exact (inherited_member_is_taken_for_a_replacement defOf id prototype Container (Ctx 0)
           ViewFactoryProvider_new 0 JsUndefined fobj "toString" 9 w H1 eq_refl H3 H4 eq_refl).
Defined.
